(** * uvdata/telescopes.py: Telescope objects and the table of known telescopes

    A shallow embedding of [uvdata/telescopes.py].  The Python object model
    the file relies on is written out: a heap of parameter objects, one
    attribute dictionary per [Telescope] instance, and the properties that
    [Telescope.__init__] installs on the class object, which every instance
    shares.  Floats are IEEE binary64, as Python's are. *)

From Stdlib Require Import Floats.PrimFloat.
From stdpp Require Import gmap strings list fin_maps sorting.

Set Warnings "-inexact-float".
#[local] Open Scope string_scope.

(** ** Python values *)

(** Objects live at locations; a fresh one is taken for every object created. *)
Abbreviation loc := nat.

(** What a parameter is meant to hold: None, a str or a float. *)
Inductive value :=
| VNone
| VStr (s : string)
| VFloat (x : float).

Inductive pyval :=
| PVal (v : value)
| PParam (l : loc)                  (* a uvp.UVParameter (or subclass) object *)
| PTelescope (l : loc)              (* a Telescope instance *)
| PMethod (self : loc) (m : string) (* a method of Telescope bound to an instance *)
| PBuiltin (m : string).            (* an attribute inherited from object *)

(** [uvdata.parameter] is imported as [uvp].  Its classes are not part of
    these sources; an object records the arguments the constructor is called
    with ([None] where the call passes none), and its [value] attribute. *)
Module uvp.
Inductive class := UVParameter_class | AngleParameter_class.

Record UVParameter := mk {
  cls : class;
  name : string;
  description : string;
  form : option string;
  expected_type : option string;
  tols : option float;
  value : pyval
}.

Definition set_value (p : UVParameter) (v : pyval) : UVParameter :=
  mk (cls p) (name p) (description p) (form p) (expected_type p) (tols p) v.
End uvp.

(** ** Program state, exceptions and the two monads *)

Record state := mkState {
  params : gmap loc uvp.UVParameter;     (* the parameter objects *)
  insts : gmap loc (gmap string pyval);  (* __dict__ of every Telescope instance *)
  props : gmap string string;            (* properties on the class Telescope:
                                            attribute name -> the param_name its
                                            fget and fset closures captured *)
  stdout : list string;                  (* lines printed so far *)
  next : loc                             (* the next fresh location *)
}.

Definition init_state : state := mkState ∅ ∅ ∅ [] 0.

(** The two messages [telescopes] raises ValueError with. *)
Inductive message :=
| frame_is_not_ITRF        (* latitude, longitude or altitude not specified and frame is not 'ITRF' *)
| position_not_specified.  (* either the center_xyz and frame or the latitude, longitude and
                              altitude of the telescope must be specified *)

Inductive exn :=
| AttributeError (attr : string)
| IndexError
| TypeError
| ValueError (m : message)
| RecursionError.

Inductive result (A : Type) :=
| Ok (a : A)
| Raise (e : exn).
Arguments Ok {A} a.
Arguments Raise {A} e.

(** Code that only reads the state. *)
Definition R (A : Type) : Type := state → result A.
(** Code that may change it. *)
Definition M (A : Type) : Type := state → result (A * state).

#[global] Instance R_ret : MRet R := λ A a _, Ok a.
#[global] Instance R_bind : MBind R := λ A B f m s,
  match m s with
  | Ok a => f a s
  | Raise e => Raise e
  end.
#[global] Instance M_ret : MRet M := λ A a s, Ok (a, s).
#[global] Instance M_bind : MBind M := λ A B f m s,
  match m s with
  | Ok (a, s') => f a s'
  | Raise e => Raise e
  end.

Definition raiseR {A} (e : exn) : R A := λ _, Raise e.
Definition raise {A} (e : exn) : M A := λ _, Raise e.
Definition read {A} (r : R A) : M A := λ s,
  match r s with
  | Ok a => Ok (a, s)
  | Raise e => Raise e
  end.

(** ** Attribute access *)

(** The methods [class Telescope] defines. *)
Definition Telescope_methods : list string :=
  ["__init__"; "prop_fget"; "prop_fset"; "parameter_iter"; "__eq__"; "__ne__"].

(** What a new-style class inherits from [object] or gets from the class
    statement; every name starts with two underscores. *)
Definition object_attrs : list string :=
  ["__class__"; "__delattr__"; "__dict__"; "__doc__"; "__format__";
   "__getattribute__"; "__hash__"; "__module__"; "__new__"; "__reduce__";
   "__reduce_ex__"; "__repr__"; "__setattr__"; "__sizeof__"; "__str__";
   "__subclasshook__"; "__weakref__"].

(** Python's default recursion limit. *)
Definition recursion_limit : nat := 1000.

(** [getattr(self, a)] on a Telescope instance.  A property on the class is a
    data descriptor and comes first; its getter is the closure [fget] of
    [prop_fget]:
<<
        this_param = getattr(self, param_name)
        return this_param.value
>>
    Then the instance dictionary, then methods and inherited attributes. *)
Fixpoint getattr_ (fuel : nat) (self : loc) (a : string) : R pyval := λ s,
  match props s !! a with
  | Some param_name =>
      match fuel with
      | 0 => Raise RecursionError
      | S fuel =>
          match getattr_ fuel self param_name s with
          | Ok (PParam l) =>
              match params s !! l with
              | Some p => Ok (uvp.value p)
              | None => Raise (AttributeError "value")
              end
          | Ok (PTelescope o) => getattr_ fuel o "value" s
          | Ok _ => Raise (AttributeError "value")
          | Raise e => Raise e
          end
      end
  | None =>
      match insts s !! self ≫= (.!! a) with
      | Some v => Ok v
      | None =>
          if decide (a ∈ Telescope_methods) then Ok (PMethod self a)
          else if decide (a ∈ object_attrs) then Ok (PBuiltin a)
          else Raise (AttributeError a)
      end
  end.

Definition getattr : loc → string → R pyval := getattr_ recursion_limit.

(** [self.__dict__[a] = v] *)
Definition dict_set (self : loc) (a : string) (v : pyval) : M unit := λ s,
  Ok (tt, mkState (params s)
                  (<[self := <[a := v]> (default ∅ (insts s !! self))]> (insts s))
                  (props s) (stdout s) (next s)).

(** [p.value = v] for the parameter object at [l] *)
Definition param_set_value (l : loc) (v : pyval) : M unit := λ s,
  match params s !! l with
  | Some p =>
      Ok (tt, mkState (<[l := uvp.set_value p v]> (params s))
                      (insts s) (props s) (stdout s) (next s))
  | None => Raise (AttributeError "value")
  end.

(** [setattr(self, a, v)] on a Telescope instance.  Through a property it runs
    the closure [fset] of [prop_fset]:
<<
        this_param = getattr(self, param_name)
        this_param.value = value
        setattr(self, param_name, this_param)
>>
    otherwise it stores into the instance dictionary. *)
Fixpoint setattr_ (fuel : nat) (self : loc) (a : string) (v : pyval) : M unit := λ s,
  match props s !! a with
  | Some param_name =>
      match fuel with
      | 0 => Raise RecursionError
      | S fuel =>
          (this_param ← read (getattr_ fuel self param_name);
           match this_param with
           | PParam l => param_set_value l v
           | PTelescope o => setattr_ fuel o "value" v
           | _ => raise (AttributeError "value")
           end;;
           setattr_ fuel self param_name this_param) s
      end
  | None => dict_set self a v s
  end.

Definition setattr : loc → string → pyval → M unit := setattr_ recursion_limit.

(** ** Telescope *)

(** [callable(v)]: methods are; None, strings, floats, parameter objects
    and Telescopes are not.  [parameter_iter] never asks it of an inherited
    attribute, whose name starts with two underscores. *)
Definition callable (v : pyval) : bool :=
  match v with
  | PMethod _ _ | PBuiltin _ => true
  | _ => false
  end.

(** [isinstance(v, uvp.UVParameter)]; AngleParameter objects count, as
    [__init__] relies on when it makes properties for latitude and longitude. *)
Definition is_UVParameter (v : pyval) : bool :=
  match v with
  | PParam _ => true
  | _ => false
  end.

(** [dir(self)]: the names in the instance dictionary and on the class, sorted. *)
Definition dir (self : loc) : R (list string) := λ s,
  Ok (merge_sort String.leb
        (remove_dups ((map_to_list (default ∅ (insts s !! self))).*1 ++
                      (map_to_list (props s)).*1 ++
                      Telescope_methods ++ object_attrs))).

(** A list comprehension with a condition that reads the state. *)
Fixpoint filterR (f : string → R bool) (l : list string) : R (list string) :=
  match l with
  | [] => mret []
  | a :: l =>
      b ← f a;
      l' ← filterR f l;
      mret (if b : bool then a :: l' else l')
  end.

(** [parameter_iter]: both lists are complete before the first name is
    yielded, so the generator is the list of names it yields. *)
Definition parameter_iter (self : loc) : R (list string) :=
  names ← dir self;
  attribute_list ←
    filterR (λ a, if String.prefix "__" a then mret false
                  else attr ← getattr self a; mret (negb (callable attr))) names;
  param_list ←
    filterR (λ a, attr ← getattr self a; mret (is_UVParameter attr)) attribute_list;
  mret param_list.

(** [uvp.UVParameter(...)] and [uvp.AngleParameter(...)]: a new object whose
    value is None. *)
Definition new_param (c : uvp.class) (name description : string)
    (form expected_type : option string) (tols : option float) : M pyval := λ s,
  Ok (PParam (next s),
      mkState (<[next s := uvp.mk c name description form expected_type tols (PVal VNone)]>
                 (params s))
              (insts s) (props s) (stdout s) (S (next s))).

(** [2 * np.pi * 1e-3 / (60.0 * 60.0 * 24.0)] *)
Definition np_pi : float := 3.141592653589793%float.
Definition angle_tols : float := (2 * np_pi * 1e-3 / (60.0 * 60.0 * 24.0))%float.

(** The description of xyz_telescope_frame; character 34 is the double quote. *)
Definition dquote : string := String (Ascii.ascii_of_nat 34) EmptyString.
Definition xyz_frame_desc : string :=
  "coordinate frame for antenna positions " ++
  "(eg " ++ dquote ++ "ITRF" ++ dquote ++ " -also google ECEF). NB: ECEF has x running " ++
  "through long=0 and z through the north pole".

(** [this_param.name], which [__init__] uses as the name of the property *)
Definition name_of (this_param : pyval) : R string :=
  match this_param with
  | PParam l => λ s,
      match params s !! l with
      | Some p => Ok (uvp.name p)
      | None => Raise (AttributeError "name")
      end
  | PTelescope o =>
      n ← getattr o "name";
      match n with
      | PVal (VStr n) => mret n
      | _ => raiseR TypeError
      end
  | _ => raiseR (AttributeError "name")
  end.

(** [setattr(self.__class__, attr_name, property(self.prop_fget(p), self.prop_fset(p)))] *)
Definition install_property (attr_name p : string) : M unit := λ s,
  Ok (tt, mkState (params s) (insts s) (<[attr_name := p]> (props s)) (stdout s) (next s)).

Fixpoint setup_properties (self : loc) (ps : list string) : M unit :=
  match ps with
  | [] => mret tt
  | p :: ps =>
      this_param ← read (getattr self p);
      attr_name ← read (name_of this_param);
      install_property attr_name p;;
      setup_properties self ps
  end.

Definition Telescope_init (self : loc) : M unit :=
  p ← new_param uvp.UVParameter_class "telescope_name"
        "name of telescope (string)" (Some "str") None None;
  setattr self "_telescope_name" p;;
  p ← new_param uvp.UVParameter_class "xyz_telescope_frame"
        xyz_frame_desc (Some "str") None None;
  setattr self "_xyz_telescope_frame" p;;
  p ← new_param uvp.UVParameter_class "x_telescope"
        "x coordinates of array center in meters in coordinate frame"
        None None (Some 1e-3%float);
  setattr self "_x_telescope" p;;
  p ← new_param uvp.UVParameter_class "y_telescope"
        "y coordinates of array center in meters in coordinate frame"
        None None (Some 1e-3%float);
  setattr self "_y_telescope" p;;
  p ← new_param uvp.UVParameter_class "z_telescope"
        "z coordinates of array center in meters in coordinate frame"
        None None (Some 1e-3%float);
  setattr self "_z_telescope" p;;
  p ← new_param uvp.AngleParameter_class "latitude"
        "latitude of telescope, units radians"
        None (Some "np.float") (Some angle_tols);
  setattr self "_latitude" p;;
  p ← new_param uvp.AngleParameter_class "longitude"
        "longitude of telescope, units radians"
        None (Some "np.float") (Some angle_tols);
  setattr self "_longitude" p;;
  p ← new_param uvp.UVParameter_class "altitude"
        "altitude of telescope, units meters"
        None (Some "np.float") (Some 1e-3%float);
  setattr self "_altitude" p;;
  ps ← read (parameter_iter self);
  setup_properties self ps.

(** [Telescope()]: a new instance with an empty dictionary, then [__init__]. *)
Definition Telescope_new : M loc := λ s,
  let self := next s in
  (Telescope_init self;; mret self)
    (mkState (params s) (<[self := ∅]> (insts s)) (props s) (stdout s) (S (next s))).

(** [print(line)] *)
Definition print (line : string) : M unit := λ s,
  Ok (tt, mkState (params s) (insts s) (props s) (stdout s ++ [line]) (next s)).

(** What a reference denotes: a parameter object, or anything else. *)
Inductive pyobj :=
| OParam (p : uvp.UVParameter)
| OOther (v : pyval).

Definition deref (v : pyval) : R pyobj := λ s,
  match v with
  | PParam l =>
      match params s !! l with
      | Some p => Ok (OParam p)
      | None => Ok (OOther v)
      end
  | _ => Ok (OOther v)
  end.

(** ** The entries of the table *)

(** What a dict literal of [telescopes] holds under a key: a str, a list of
    floats or a float. *)
Inductive item :=
| IStr (s : string)
| IList (xs : list float)
| IFloat (x : float).

(** A dict with str keys, which is what the loop of [telescopes] takes an
    entry to be when it asks ['center_xyz' in telescope.keys()]. *)
Abbreviation dict := (gmap string item).

Definition Pstr (s : string) : pyval := PVal (VStr s).
Definition Pfloat (x : float) : pyval := PVal (VFloat x).

(** The attributes of a dict object: what it has from [object], its special
    methods and its methods.  (Python 3 drops [has_key] and the iter and
    view methods and adds a few names with two underscores.) *)
Definition dict_attrs : list string :=
  ["__class__"; "__cmp__"; "__contains__"; "__delattr__"; "__delitem__";
   "__doc__"; "__eq__"; "__format__"; "__ge__"; "__getattribute__";
   "__getitem__"; "__gt__"; "__hash__"; "__init__"; "__iter__"; "__le__";
   "__len__"; "__lt__"; "__ne__"; "__new__"; "__reduce__"; "__reduce_ex__";
   "__repr__"; "__setattr__"; "__setitem__"; "__sizeof__"; "__str__";
   "__subclasshook__"; "clear"; "copy"; "fromkeys"; "get"; "has_key";
   "items"; "iteritems"; "iterkeys"; "itervalues"; "keys"; "pop"; "popitem";
   "setdefault"; "update"; "values"; "viewitems"; "viewkeys"; "viewvalues"].

(** [telescope.a] on a dict.  What a dict holds under a key is read with
    [telescope['a']]; [telescope.a] asks the dict object for an attribute: it
    finds one of [dict_attrs], written here as a built-in, or raises
    AttributeError.  It never looks among the keys. *)
Definition dict_getattr (telescope : dict) (a : string) : M pyval :=
  if decide (a ∈ dict_attrs) then mret (PBuiltin a) else raise (AttributeError a).

(** ['k' in telescope.keys()] *)
Definition in_keys (k : string) (telescope : dict) : bool :=
  bool_decide (is_Some (telescope !! k)).

(** [v[i]]: of the values written here only a str has items. *)
Definition subscript (v : pyval) (i : nat) : M pyval :=
  match v with
  | PVal (VStr s) =>
      match String.get i s with
      | Some c => mret (Pstr (String c EmptyString))
      | None => raise IndexError
      end
  | _ => raise TypeError
  end.

(** [v == t] for a str [t] and a value read off a dict: a str equals [t]
    when it is [t]; None, a float and a built-in equal no str. *)
Definition eq_str (v : pyval) (t : string) : bool :=
  match v with
  | PVal (VStr s) => bool_decide (s = t)
  | _ => false
  end.

(** A call that returns or raises, and leaves the state alone. *)
Definition call {A} (r : result A) : M A := λ s,
  match r with
  | Ok a => Ok (a, s)
  | Raise e => Raise e
  end.

Section Telescope.

(** [a != b] on two objects.  Between two parameter objects this is
    [uvp.UVParameter.__ne__], which is not part of these sources: it is
    taken as given, a function that returns a bool and neither raises nor
    prints nor changes anything. *)
Variable ne : pyobj → pyobj → bool.

(** [uvdata.utils] is not part of these sources either; its two coordinate
    functions are taken as given.  Each returns three objects, or raises. *)
Variable XYZ_from_LatLonAlt : pyval → pyval → pyval → result (pyval * pyval * pyval).
Variable LatLonAlt_from_XYZ : pyval → result (pyval * pyval * pyval).

(** The loop of [__eq__].  [examined] is not in the source: it collects the
    names the loop body has run for, in order. *)
Fixpoint eq_loop (self other : loc) (ps : list string)
    (isequal : bool) (examined : list string) : R (bool * list string) :=
  match ps with
  | [] => mret (isequal, examined)
  | p :: ps =>
      self_param ← getattr self p;
      other_param ← getattr other p;
      l ← deref self_param;
      r ← deref other_param;
      eq_loop self other ps (if ne l r then false else isequal) (examined ++ [p])
  end.

(** [__eq__], with the names its loop examined.  [isinstance(other,
    self.__class__)] holds of Telescope instances, the only class here. *)
Definition Telescope_eq_examined (self : loc) (other : pyval) : M (bool * list string) :=
  match other with
  | PTelescope other =>
      ps ← read (parameter_iter self);
      read (eq_loop self other ps true [])
  | _ =>
      print "Classes do not match";;
      mret (false, [])
  end.

Definition Telescope_eq (self : loc) (other : pyval) : M bool :=
  r ← Telescope_eq_examined self other;
  mret r.1.

Definition Telescope_ne (self : loc) (other : pyval) : M bool :=
  b ← Telescope_eq self other;
  mret (negb b).

(** The body of the loop of [telescopes], lines 113 to 150, for one entry
    [telescope] of [dict_list]; [telescopes] is the local dict the loop
    fills, written as the list of its assignments, latest first.  The entry
    is read with attribute syntax, [telescope.name], and tested with
    [telescope.keys()].  (The string on lines 132 and 133 lacks a quote; it is
    taken as the one message it is meant to be.) *)
Definition telescopes_body (telescope : dict) (telescopes : list (pyval * pyval))
    : M (list (pyval * pyval)) :=
  obj ← Telescope_new;
  v ← dict_getattr telescope "name";
  setattr obj "telescope_name" v;;
  (if in_keys "center_xyz" telescope && in_keys "frame" telescope then
     v ← dict_getattr telescope "frame";
     setattr obj "xyz_telescope_frame" v;;
     c ← dict_getattr telescope "center_xyz";
     x ← subscript c 0;
     setattr obj "x_telescope" x;;
     c ← dict_getattr telescope "center_xyz";
     y ← subscript c 1;
     setattr obj "y_telescope" y;;
     c ← dict_getattr telescope "center_xyz";
     z ← subscript c 2;
     setattr obj "z_telescope" z;;
     if in_keys "latitude" telescope && in_keys "longitude" telescope
        && in_keys "altitude" telescope then
       v ← dict_getattr telescope "latitude";
       setattr obj "latitude" v;;
       v ← dict_getattr telescope "longitude";
       setattr obj "longitude" v;;
       v ← dict_getattr telescope "altitude";
       setattr obj "altitude" v
     else
       fr ← dict_getattr telescope "frame";
       if eq_str fr "ITRF" then
         c ← dict_getattr telescope "center_xyz";
         lla ← call (LatLonAlt_from_XYZ c);
         setattr obj "latitude" lla.1.1;;
         setattr obj "longitude" lla.1.2;;
         setattr obj "altitude" lla.2
       else raise (ValueError frame_is_not_ITRF)
   else
     if negb (in_keys "latitude" telescope && in_keys "longitude" telescope
              && in_keys "altitude" telescope) then
       raise (ValueError position_not_specified)
     else
       v ← dict_getattr telescope "latitude";
       setattr obj "latitude" v;;
       v ← dict_getattr telescope "longitude";
       setattr obj "longitude" v;;
       v ← dict_getattr telescope "latitude";
       setattr obj "latitude" v;;
       lat ← dict_getattr telescope "latitude";
       lon ← dict_getattr telescope "longitude";
       alt ← dict_getattr telescope "altitude";
       xyz ← call (XYZ_from_LatLonAlt lat lon alt);
       setattr obj "xyz_telescope_frame" (Pstr "ITRF");;
       setattr obj "x_telescope" xyz.1.1;;
       setattr obj "y_telescope" xyz.1.2;;
       setattr obj "z_telescope" xyz.2);;
  k ← dict_getattr telescope "name";
  mret ((k, PTelescope obj) :: telescopes).

(** The loop of [telescopes], lines 112 to 150, over the list that
    [dict_list] holds.  The three dict literals that the source puts in
    [dict_list] give no value to latitude, longitude and altitude and write
    their keys without quotes; Python refuses the file for the first and
    would not find the names for the second, so the table itself is not
    written here and the loop is a function of the list.  [telescopes] has
    no return statement: what the loop has filled is dropped. *)
Fixpoint telescopes_loop (dict_list : list dict) (telescopes : list (pyval * pyval))
    : M (list (pyval * pyval)) :=
  match dict_list with
  | [] => mret telescopes
  | telescope :: dict_list =>
      telescopes ← telescopes_body telescope telescopes;
      telescopes_loop dict_list telescopes
  end.

End Telescope.


(** * The vocabulary of the properties *)

#[local] Open Scope nat_scope.

(** ** The shape of the states the program reaches *)

(** The attribute that holds each parameter object and the parameter's name,
    in the order [__init__] creates them. *)
Definition fields : list (string * string) :=
  [("_telescope_name", "telescope_name");
   ("_xyz_telescope_frame", "xyz_telescope_frame");
   ("_x_telescope", "x_telescope");
   ("_y_telescope", "y_telescope");
   ("_z_telescope", "z_telescope");
   ("_latitude", "latitude");
   ("_longitude", "longitude");
   ("_altitude", "altitude")].

(** What [parameter_iter] yields on a Telescope. *)
Definition param_names : list string :=
  ["_altitude"; "_latitude"; "_longitude"; "_telescope_name";
   "_x_telescope"; "_xyz_telescope_frame"; "_y_telescope"; "_z_telescope"].

(** The properties on the class once an instance has been made. *)
Definition Telescope_props : gmap string string :=
  list_to_map ((λ f, (f.2, f.1)) <$> fields).

(** The dictionary of the instance at [i]: its parameter objects are the
    eight objects created right after it. *)
Definition Telescope_dict (i : loc) : gmap string pyval :=
  list_to_map (imap (λ k f, (f.1, PParam (S k + i))) fields).

(** The instance at [i] is as [__init__] made it, up to the values of its
    parameters, which are None, strings or floats. *)
Record inst_ok (s : state) (i : loc) : Prop := {
  io_dict : insts s !! i = Some (Telescope_dict i);
  io_next : i + 9 ≤ next s;
  io_param : ∀ k f, fields !! k = Some f →
    ∃ p v, params s !! (S k + i) = Some p ∧ uvp.name p = f.2 ∧ uvp.value p = PVal v
}.

(** The invariant: the class has its eight properties as soon as there is
    an instance, every instance is as [__init__] made it, and no two
    instances share a parameter object. *)
Record wf (s : state) : Prop := {
  wf_props : props s = Telescope_props ∨ (props s = ∅ ∧ insts s = ∅);
  wf_inst : ∀ i, is_Some (insts s !! i) → inst_ok s i;
  wf_sep : ∀ i j, is_Some (insts s !! i) → is_Some (insts s !! j) →
    i ≠ j → i + 9 ≤ j ∨ j + 9 ≤ i
}.

(** The states reached from the initial one by creating Telescopes and
    assigning None, strings and floats to their fields. *)
Inductive reachable : state → Prop :=
| reach_init : reachable init_state
| reach_new s i s' :
    reachable s → Telescope_new s = Ok (i, s') → reachable s'
| reach_set s i f v s' :
    reachable s → is_Some (insts s !! i) → f ∈ fields.*2 →
    setattr i f (PVal v) s = Ok (tt, s') → reachable s'.

Definition holds_values (s : state) (i : loc) : Prop :=
  ∀ k f, fields !! k = Some f →
    ∃ p v, params s !! (S k + i) = Some p ∧ uvp.name p = f.2 ∧ uvp.value p = PVal v.

Definition plain_attr (a : string) : bool :=
  negb (String.prefix "__" a) && bool_decide (a ∈ (fields.*1 ++ fields.*2)%list).
Definition param_attr (a : string) : bool := bool_decide (a ∈ fields.*1).

(** ** The states the code leaves *)

(** The eight parameter objects [__init__] creates, in its order. *)
Definition schema : list uvp.UVParameter :=
  [uvp.mk uvp.UVParameter_class "telescope_name" "name of telescope (string)"
     (Some "str") None None (PVal VNone);
   uvp.mk uvp.UVParameter_class "xyz_telescope_frame" xyz_frame_desc
     (Some "str") None None (PVal VNone);
   uvp.mk uvp.UVParameter_class "x_telescope"
     "x coordinates of array center in meters in coordinate frame"
     None None (Some 1e-3%float) (PVal VNone);
   uvp.mk uvp.UVParameter_class "y_telescope"
     "y coordinates of array center in meters in coordinate frame"
     None None (Some 1e-3%float) (PVal VNone);
   uvp.mk uvp.UVParameter_class "z_telescope"
     "z coordinates of array center in meters in coordinate frame"
     None None (Some 1e-3%float) (PVal VNone);
   uvp.mk uvp.AngleParameter_class "latitude" "latitude of telescope, units radians"
     None (Some "np.float") (Some angle_tols) (PVal VNone);
   uvp.mk uvp.AngleParameter_class "longitude" "longitude of telescope, units radians"
     None (Some "np.float") (Some angle_tols) (PVal VNone);
   uvp.mk uvp.UVParameter_class "altitude" "altitude of telescope, units meters"
     None (Some "np.float") (Some 1e-3%float) (PVal VNone)].

(** The heap after the objects of the instance at [n] have been added. *)
Fixpoint alloc_list (l : loc) (objs : list uvp.UVParameter)
    (ps : gmap loc uvp.UVParameter) : gmap loc uvp.UVParameter :=
  match objs with
  | [] => ps
  | p :: objs => alloc_list (S l) objs (<[l := p]> ps)
  end.

Definition alloc_params (n : loc) : gmap loc uvp.UVParameter → gmap loc uvp.UVParameter :=
  alloc_list (S n) schema.

Definition new_state (s : state) : state :=
  mkState (alloc_params (next s) (params s))
          (<[next s := Telescope_dict (next s)]> (insts s))
          Telescope_props (stdout s) (9 + next s).

(** A parameter's name is its attribute without the underscore. *)
Definition public_name (a : string) : string :=
  match a with
  | String _ n => n
  | EmptyString => a
  end.

(** The state after [p.value = v] for the object at [l]. *)
Definition store (s : state) (l : loc) (p : uvp.UVParameter) : state :=
  mkState (<[l := p]> (params s)) (insts s) (props s) (stdout s) (next s).

(** ** What an instance holds *)

(** The value of field number [k] of the instance at [i]. *)
Definition field_val (s : state) (i : loc) (k : nat) : option pyval :=
  uvp.value <$> params s !! (S k + i).

(** The parameter object an instance holds under an attribute name. *)
Definition param_at (s : state) (i : loc) (p : string) : option uvp.UVParameter :=
  d ← insts s !! i;
  v ← d !! p;
  match v with
  | PParam l => params s !! l
  | _ => None
  end.

(** The two objects under the name [p] compare equal. *)
Definition pair_equal (ne : pyobj → pyobj → bool) (s : state) (a b : loc) (p : string) : Prop :=
  ∃ pa pb, param_at s a p = Some pa ∧ param_at s b p = Some pb ∧
           ne (OParam pa) (OParam pb) = false.

(** The values of the eight fields of the instance at [i], in the order of
    [fields]: telescope_name, xyz_telescope_frame, x_telescope, y_telescope,
    z_telescope, latitude, longitude, altitude. *)
Definition fields_of (s : state) (i : loc) : list (option pyval) :=
  field_val s i <$> seq 0 8.

(** ** Sample objects, to run the code on *)

(** Modelled from the spec: [uvp.UVParameter.__eq__] and [__ne__], which are
    not part of these sources.  Two parameters are equal iff they have the
    same name, the same declared type and form, and their values match:
    exactly for None and strings, within the tolerance for floats. *)
Definition values_match (tol : option float) (x y : pyval) : bool :=
  match x, y with
  | PVal VNone, PVal VNone => true
  | PVal (VStr a), PVal (VStr b) => String.eqb a b
  | PVal (VFloat a), PVal (VFloat b) =>
      match tol with
      | Some t => (abs (a - b) <=? t)%float
      | None => (a =? b)%float
      end
  | _, _ => false
  end.

Definition UVParameter_eq (p q : uvp.UVParameter) : bool :=
  String.eqb (uvp.name p) (uvp.name q) &&
  bool_decide (uvp.form p = uvp.form q) &&
  bool_decide (uvp.expected_type p = uvp.expected_type q) &&
  values_match (uvp.tols p) (uvp.value p) (uvp.value q).

Definition UVParameter_ne (a b : pyobj) : bool :=
  match a, b with
  | OParam p, OParam q => negb (UVParameter_eq p q)
  | _, _ => true
  end.

(** The state a program leaves. *)
Definition run {A} (m : M A) (s : state) : state :=
  match m s with
  | Ok (_, s') => s'
  | Raise _ => s
  end.

(** The result of a program, without the state. *)
Definition result_of {A} (r : result (A * state)) : result A :=
  match r with
  | Ok (a, _) => Ok a
  | Raise e => Raise e
  end.

(** Two Telescopes, at 0 and 9; the first has its latitude set. *)
Definition two_telescopes : state :=
  run (setattr 0 "latitude" (Pfloat 0.5%float))
    (run Telescope_new (run Telescope_new init_state)).

(** Stand-ins for the two functions of [uvdata.utils]; no theorem depends on
    what they return. *)
Definition sample_XYZ_from_LatLonAlt (lat lon alt : pyval) : result (pyval * pyval * pyval) :=
  Ok (lat, lon, alt).
Definition sample_LatLonAlt_from_XYZ (xyz : pyval) : result (pyval * pyval * pyval) :=
  Ok (xyz, xyz, xyz).

(** An entry with a geodetic position only. *)
Definition geodetic_entry : dict :=
  list_to_map [("name", IStr "HERA"); ("latitude", IFloat (-0.5361));
               ("longitude", IFloat 0.3739); ("altitude", IFloat 1073.0)].


(** An entry with the keys of the source's entries: a frame ITRF, an empty
    center and a geodetic position. *)
Definition full_entry : dict :=
  list_to_map [("name", IStr "HERA"); ("frame", IStr "ITRF"); ("center_xyz", IList []);
               ("latitude", IFloat (-0.5361)); ("longitude", IFloat 0.3739);
               ("altitude", IFloat 1073.0)].

(** One milliarcsecond, in radians. *)
Definition milliarcsecond : float := (np_pi / 180 / 3600 / 1000)%float.

(** ** Reading attributes *)

(** [getattr(i, p)] returns. *)
Definition readable (s : state) (i : loc) (p : string) : Prop :=
  ∃ v, getattr i p s = Ok v.

(** The state after [del i.a]: the attribute is gone from the dictionary of
    the instance. *)
Definition without_attr (i : loc) (a : string) (s : state) : state :=
  mkState (params s) (<[i := delete a (default ∅ (insts s !! i))]> (insts s))
          (props s) (stdout s) (next s).

(** * Lemmas *)

(** ** Unfolding *)

Lemma R_bind_eq {A B} (m : R A) (f : A → R B) s :
  (m ≫= f) s = match m s with Ok a => f a s | Raise e => Raise e end.
Proof. reflexivity. Qed.

Lemma M_bind_eq {A B} (m : M A) (f : A → M B) s :
  (m ≫= f) s = match m s with Ok (a, s') => f a s' | Raise e => Raise e end.
Proof. reflexivity. Qed.

Lemma getattr_unfold fuel self a s :
  getattr_ fuel self a s =
  match props s !! a with
  | Some param_name =>
      match fuel with
      | 0 => Raise RecursionError
      | S fuel =>
          match getattr_ fuel self param_name s with
          | Ok (PParam l) =>
              match params s !! l with
              | Some p => Ok (uvp.value p)
              | None => Raise (AttributeError "value")
              end
          | Ok (PTelescope o) => getattr_ fuel o "value" s
          | Ok _ => Raise (AttributeError "value")
          | Raise e => Raise e
          end
      end
  | None =>
      match insts s !! self ≫= (.!! a) with
      | Some v => Ok v
      | None =>
          if decide (a ∈ Telescope_methods) then Ok (PMethod self a)
          else if decide (a ∈ object_attrs) then Ok (PBuiltin a)
          else Raise (AttributeError a)
      end
  end.
Proof. destruct fuel; reflexivity. Qed.

Lemma setattr_unfold fuel self a v s :
  setattr_ fuel self a v s =
  match props s !! a with
  | Some param_name =>
      match fuel with
      | 0 => Raise RecursionError
      | S fuel =>
          (this_param ← read (getattr_ fuel self param_name);
           match this_param with
           | PParam l => param_set_value l v
           | PTelescope o => setattr_ fuel o "value" v
           | _ => raise (AttributeError "value")
           end;;
           setattr_ fuel self param_name this_param) s
      end
  | None => dict_set self a v s
  end.
Proof. destruct fuel; reflexivity. Qed.

(** ** Looking up the fields *)

Lemma fields_cases k f :
  fields !! k = Some f →
  (k = 0 ∧ f = ("_telescope_name", "telescope_name")) ∨
  (k = 1 ∧ f = ("_xyz_telescope_frame", "xyz_telescope_frame")) ∨
  (k = 2 ∧ f = ("_x_telescope", "x_telescope")) ∨
  (k = 3 ∧ f = ("_y_telescope", "y_telescope")) ∨
  (k = 4 ∧ f = ("_z_telescope", "z_telescope")) ∨
  (k = 5 ∧ f = ("_latitude", "latitude")) ∨
  (k = 6 ∧ f = ("_longitude", "longitude")) ∨
  (k = 7 ∧ f = ("_altitude", "altitude")).
Proof.
  intros H. do 8 (destruct k as [|k]; [injection H as <-; tauto|]). discriminate.
Qed.

Ltac each_field H :=
  apply fields_cases in H;
  destruct H as [[-> ->]|[[-> ->]|[[-> ->]|[[-> ->]|[[-> ->]|[[-> ->]|[[-> ->]|[-> ->]]]]]]]].

Lemma props_lookup k f :
  fields !! k = Some f →
  Telescope_props !! f.1 = None ∧ Telescope_props !! f.2 = Some f.1.
Proof. intros H. each_field H; split; vm_compute; reflexivity. Qed.

Lemma dict_lookup i k f :
  fields !! k = Some f →
  Telescope_dict i !! f.1 = Some (PParam (S k + i)) ∧ Telescope_dict i !! f.2 = None.
Proof. intros H. each_field H; split; vm_compute; reflexivity. Qed.

Lemma getattr_eq : getattr = getattr_ (S (S 998)).
Proof. reflexivity. Qed.

Lemma setattr_eq : setattr = setattr_ (S (S 998)).
Proof. reflexivity. Qed.

Lemma getattr_plain fuel s i d a v :
  props s !! a = None → insts s !! i = Some d → d !! a = Some v →
  getattr_ fuel i a s = Ok v.
Proof.
  intros Hp Hi Hd. rewrite getattr_unfold, Hp, Hi. simpl. rewrite Hd. reflexivity.
Qed.

Lemma getattr_method fuel s i d a :
  props s !! a = None → insts s !! i = Some d → d !! a = None →
  a ∈ Telescope_methods →
  getattr_ fuel i a s = Ok (PMethod i a).
Proof.
  intros Hp Hi Hd Ha. rewrite getattr_unfold, Hp, Hi. simpl. rewrite Hd.
  rewrite decide_True by done. reflexivity.
Qed.

Lemma getattr_missing fuel s i d a :
  props s !! a = None → insts s !! i = Some d → d !! a = None →
  a ∉ Telescope_methods → a ∉ object_attrs →
  getattr_ fuel i a s = Raise (AttributeError a).
Proof.
  intros Hp Hi Hd Ha Hb. rewrite getattr_unfold, Hp, Hi. simpl. rewrite Hd.
  rewrite !decide_False by done. reflexivity.
Qed.

Lemma getattr_attr fuel s i k f :
  props s = Telescope_props → insts s !! i = Some (Telescope_dict i) →
  fields !! k = Some f →
  getattr_ fuel i f.1 s = Ok (PParam (S k + i)).
Proof.
  intros Hp Hi Hf. eapply getattr_plain; [|done|].
  - rewrite Hp. apply (props_lookup _ _ Hf).
  - apply (dict_lookup _ _ _ Hf).
Qed.

Lemma getattr_field fuel s i k f p :
  props s = Telescope_props → insts s !! i = Some (Telescope_dict i) →
  fields !! k = Some f → params s !! (S k + i) = Some p →
  getattr_ (S fuel) i f.2 s = Ok (uvp.value p).
Proof.
  intros Hp Hi Hf Hl. rewrite getattr_unfold, Hp.
  destruct (props_lookup _ _ Hf) as [_ ->].
  rewrite (getattr_attr fuel s i k f Hp Hi Hf). cbv beta iota.
  rewrite Hl. reflexivity.
Qed.

(** ** parameter_iter *)

Lemma filterR_pure f g l s :
  (∀ a, a ∈ l → f a s = Ok (g a)) →
  filterR f l s = Ok (List.filter g l).
Proof.
  induction l as [|a l IH]; intros H; [reflexivity|].
  simpl. rewrite R_bind_eq, (H a) by left. rewrite R_bind_eq, IH.
  - destruct (g a); reflexivity.
  - intros b Hb. apply H. by right.
Qed.

Lemma dir_full s i :
  props s = Telescope_props → insts s !! i = Some (Telescope_dict i) →
  ∃ l, dir i s = Ok l ∧ List.filter param_attr (List.filter plain_attr l) = param_names ∧
    Forall (λ a, String.prefix "__" a = true ∨ a ∈ fields.*1 ∨ a ∈ fields.*2 ∨
                 a ∈ ["parameter_iter"; "prop_fget"; "prop_fset"]) l.
Proof.
  intros Hp Hi. unfold dir. rewrite Hp, Hi. eexists. split; [reflexivity|].
  split; [vm_compute; reflexivity|].
  compute_done.
Qed.

Lemma dir_empty s i :
  props s = ∅ → insts s !! i = Some (Telescope_dict i) →
  ∃ l, dir i s = Ok l ∧ List.filter param_attr (List.filter plain_attr l) = param_names ∧
    Forall (λ a, String.prefix "__" a = true ∨ a ∈ fields.*1 ∨
                 a ∈ ["parameter_iter"; "prop_fget"; "prop_fset"]) l.
Proof.
  intros Hp Hi. unfold dir. rewrite Hp, Hi. eexists. split; [reflexivity|].
  split; [vm_compute; reflexivity|].
  compute_done.
Qed.

Lemma elem_fields_1 a :
  a ∈ fields.*1 → ∃ k f, fields !! k = Some f ∧ a = f.1.
Proof.
  intros [k H]%list_elem_of_lookup. rewrite list_lookup_fmap in H.
  destruct (fields !! k) as [f|] eqn:E; [|discriminate].
  injection H as <-. eauto.
Qed.

Lemma elem_fields_2 a :
  a ∈ fields.*2 → ∃ k f, fields !! k = Some f ∧ a = f.2.
Proof.
  intros [k H]%list_elem_of_lookup. rewrite list_lookup_fmap in H.
  destruct (fields !! k) as [f|] eqn:E; [|discriminate].
  injection H as <-. eauto.
Qed.

Section inst.
Context (s : state) (i : loc).
Hypothesis Hi : insts s !! i = Some (Telescope_dict i).

Lemma getattr_attr_any a :
  props s = Telescope_props ∨ props s = ∅ →
  a ∈ fields.*1 → ∃ l, getattr i a s = Ok (PParam l).
Proof.
  intros Hp (k & f & Hf & ->)%elem_fields_1. exists (S k + i).
  eapply getattr_plain; [|done|apply (dict_lookup _ _ _ Hf)].
  destruct Hp as [-> | ->]; [apply (props_lookup _ _ Hf)|apply lookup_empty].
Qed.

Lemma getattr_field_any a :
  props s = Telescope_props → holds_values s i →
  a ∈ fields.*2 → ∃ v, getattr i a s = Ok (PVal v).
Proof.
  intros Hp Hv (k & f & Hf & ->)%elem_fields_2.
  destruct (Hv _ _ Hf) as (p & v & Hl & _ & Hval). exists v.
  rewrite getattr_eq, <- Hval. by eapply getattr_field.
Qed.

Lemma getattr_method_any a :
  props s = Telescope_props ∨ props s = ∅ →
  a ∈ ["parameter_iter"; "prop_fget"; "prop_fset"] →
  getattr i a s = Ok (PMethod i a).
Proof.
  intros Hp Ha. eapply getattr_method; [|done| |].
  - destruct Hp as [-> | ->]; [|apply lookup_empty].
    repeat (apply elem_of_cons in Ha as [->|Ha]; [compute_done|]).
    by apply elem_of_nil in Ha.
  - repeat (apply elem_of_cons in Ha as [->|Ha]; [compute_done|]).
    by apply elem_of_nil in Ha.
  - repeat (apply elem_of_cons in Ha as [->|Ha]; [compute_done|]).
    by apply elem_of_nil in Ha.
Qed.

Lemma plain_attr_fields a :
  a ∈ fields.*1 ∨ a ∈ fields.*2 → plain_attr a = true.
Proof.
  intros [(k & f & Hf & ->)%elem_fields_1 | (k & f & Hf & ->)%elem_fields_2];
    each_field Hf; reflexivity.
Qed.

Lemma param_attr_field a : a ∈ fields.*2 → param_attr a = false.
Proof. intros (k & f & Hf & ->)%elem_fields_2. each_field Hf; reflexivity. Qed.

Lemma parameter_iter_full :
  props s = Telescope_props → holds_values s i →
  parameter_iter i s = Ok param_names.
Proof.
  intros Hp Hv. destruct (dir_full s i Hp Hi) as (l & Hdir & Hfil & Hall).
  unfold parameter_iter. rewrite R_bind_eq, Hdir.
  rewrite R_bind_eq, (filterR_pure _ plain_attr).
  - rewrite R_bind_eq, (filterR_pure _ param_attr); [by rewrite Hfil|].
    intros a [Ha Hplain]%list_elem_of_In%List.filter_In. rewrite R_bind_eq.
    unfold plain_attr in Hplain.
    apply andb_prop in Hplain as [_ Hin%bool_decide_eq_true_1].
    apply elem_of_app in Hin as [Hin|Hin].
    + destruct (getattr_attr_any a (or_introl Hp) Hin) as [? ->].
      unfold param_attr. by rewrite bool_decide_eq_true_2.
    + destruct (getattr_field_any a Hp Hv Hin) as [? ->].
      by rewrite param_attr_field.
  - intros a Ha. rewrite Forall_forall in Hall.
    destruct (Hall a Ha) as [H|[H|[H|H]]].
    + unfold plain_attr. by rewrite H.
    + rewrite plain_attr_fields by auto.
      destruct (String.prefix "__" a) eqn:E.
      { apply elem_fields_1 in H as (k & f & Hf & ->). each_field Hf; discriminate. }
      cbv beta iota. rewrite R_bind_eq. by destruct (getattr_attr_any a (or_introl Hp) H) as [? ->].
    + rewrite plain_attr_fields by auto.
      destruct (String.prefix "__" a) eqn:E.
      { apply elem_fields_2 in H as (k & f & Hf & ->). each_field Hf; discriminate. }
      cbv beta iota. rewrite R_bind_eq. by destruct (getattr_field_any a Hp Hv H) as [? ->].
    + repeat (apply elem_of_cons in H as [->|H];
                [simpl; by rewrite R_bind_eq, getattr_method_any by (auto; compute_done)|]).
      by apply elem_of_nil in H.
Qed.

Lemma parameter_iter_empty :
  props s = ∅ → parameter_iter i s = Ok param_names.
Proof.
  intros Hp. destruct (dir_empty s i Hp Hi) as (l & Hdir & Hfil & Hall).
  unfold parameter_iter. rewrite R_bind_eq, Hdir.
  rewrite R_bind_eq, (filterR_pure _ plain_attr).
  - rewrite R_bind_eq, (filterR_pure _ param_attr); [by rewrite Hfil|].
    intros a [Ha Hplain]%list_elem_of_In%List.filter_In. rewrite R_bind_eq.
    rewrite Forall_forall in Hall. apply list_elem_of_In in Ha.
    destruct (Hall a Ha) as [H|[H|H]].
    + unfold plain_attr in Hplain. by rewrite H in Hplain.
    + destruct (getattr_attr_any a (or_intror Hp) H) as [? ->].
      unfold param_attr. by rewrite bool_decide_eq_true_2.
    + rewrite (getattr_method_any a (or_intror Hp) H).
      repeat (apply elem_of_cons in H as [->|H]; [reflexivity|]).
      by apply elem_of_nil in H.
  - intros a Ha. rewrite Forall_forall in Hall.
    destruct (Hall a Ha) as [H|[H|H]].
    + unfold plain_attr. by rewrite H.
    + rewrite plain_attr_fields by auto.
      destruct (String.prefix "__" a) eqn:E.
      { apply elem_fields_1 in H as (k & f & Hf & ->). each_field Hf; discriminate. }
      cbv beta iota. rewrite R_bind_eq. by destruct (getattr_attr_any a (or_intror Hp) H) as [? ->].
    + repeat (apply elem_of_cons in H as [->|H];
                [simpl; by rewrite R_bind_eq, getattr_method_any by (auto; compute_done)|]).
      by apply elem_of_nil in H.
Qed.
End inst.

(** ** Creating a Telescope *)

Lemma alloc_list_old objs : ∀ l ps l',
  l' < l → alloc_list l objs ps !! l' = ps !! l'.
Proof.
  induction objs as [|p objs IH]; intros l ps l' H; [done|].
  simpl. rewrite IH by lia. apply lookup_insert_ne. lia.
Qed.

Lemma alloc_list_new objs : ∀ l ps k p,
  objs !! k = Some p → alloc_list l objs ps !! (k + l) = Some p.
Proof.
  induction objs as [|q objs IH]; intros l ps k p H; [done|].
  destruct k as [|k]; simpl in *.
  - injection H as ->. rewrite alloc_list_old by lia. apply lookup_insert_eq.
  - replace (S (k + l)) with (k + S l) by lia. by apply IH.
Qed.

Lemma alloc_params_new n ps k p :
  schema !! k = Some p → alloc_params n ps !! (S k + n) = Some p.
Proof.
  intros H. unfold alloc_params. replace (S k + n) with (k + S n) by lia.
  by apply alloc_list_new.
Qed.

Lemma alloc_params_old n ps l :
  l ≤ n → alloc_params n ps !! l = ps !! l.
Proof. intros H. apply alloc_list_old. lia. Qed.

Lemma schema_fields k f :
  fields !! k = Some f →
  ∃ p, schema !! k = Some p ∧ uvp.name p = f.2 ∧ uvp.value p = PVal VNone.
Proof. intros H. each_field H; eexists; (split; [reflexivity|]); done. Qed.

Lemma init_step {A} c nm d fo e t self a (K : M A) ps D (ins : gmap loc (gmap string pyval)) pr out m :
  pr !! a = None →
  (p ← new_param c nm d fo e t; setattr self a p;; K)
    (mkState ps (<[self := D]> ins) pr out m) =
  K (mkState (<[m := uvp.mk c nm d fo e t (PVal VNone)]> ps)
             (<[self := <[a := PParam m]> D]> ins) pr out (S m)).
Proof.
  intros H. rewrite M_bind_eq. unfold new_param. cbn [params insts props stdout next].
  rewrite M_bind_eq. unfold setattr. rewrite setattr_unfold.
  cbn [params insts props stdout next]. rewrite H. unfold dict_set.
  cbn [params insts props stdout next].
  rewrite lookup_insert_eq, insert_insert_eq. reflexivity.
Qed.

Lemma setup_step self p ps' d l prm s :
  props s !! p = None → insts s !! self = Some d → d !! p = Some (PParam l) →
  params s !! l = Some prm →
  setup_properties self (p :: ps') s =
  setup_properties self ps'
    (mkState (params s) (insts s) (<[uvp.name prm := p]> (props s)) (stdout s) (next s)).
Proof.
  intros Hp Hi Hd Hl. cbn [setup_properties]. rewrite M_bind_eq. unfold read.
  unfold getattr. rewrite (getattr_plain _ s self d p _ Hp Hi Hd).
  rewrite M_bind_eq. cbn [name_of]. rewrite Hl. rewrite M_bind_eq. reflexivity.
Qed.

Lemma public_name_field k f : fields !! k = Some f → public_name f.1 = f.2.
Proof. intros H. each_field H; reflexivity. Qed.

Lemma attr_not_name k f a : fields !! k = Some f → a ∈ fields.*1 → f.2 ≠ a.
Proof.
  intros H (k' & f' & H' & ->)%elem_fields_1. each_field H; each_field H'; discriminate.
Qed.

Lemma setup_all self l : ∀ s,
  insts s !! self = Some (Telescope_dict self) →
  (∀ k f, fields !! k = Some f →
     ∃ p, params s !! (S k + self) = Some p ∧ uvp.name p = f.2) →
  (∀ a, a ∈ fields.*1 → props s !! a = None) →
  Forall (λ a, a ∈ fields.*1) l →
  setup_properties self l s =
  Ok (tt, mkState (params s) (insts s)
                  (foldl (λ m a, <[public_name a := a]> m) (props s) l)
                  (stdout s) (next s)).
Proof.
  induction l as [|a l IH]; intros s Hi Hps Hnone Hl.
  - by destruct s.
  - apply Forall_cons in Hl as [Ha Hl].
    pose proof Ha as (k & f & Hf & ->)%elem_fields_1.
    destruct (Hps _ _ Hf) as (p & Hp & Hn).
    rewrite (setup_step self f.1 l _ _ p s (Hnone _ Ha) Hi
               (proj1 (dict_lookup _ _ _ Hf)) Hp).
    rewrite IH; [|done..| |done].
    { cbn [foldl params insts props stdout next].
      by rewrite Hn, (public_name_field _ _ Hf). }
    intros a Ha'. cbn [props]. rewrite lookup_insert_ne; [by apply Hnone|].
    rewrite Hn. by eapply attr_not_name.
Qed.

Lemma Telescope_new_eq s :
  props s = Telescope_props ∨ props s = ∅ →
  Telescope_new s = Ok (next s, new_state s).
Proof.
  intros Hp. destruct s as [ps ins pr out n]. cbn [props] in Hp.
  unfold Telescope_new, new_state. cbn [params insts props stdout next].
  rewrite M_bind_eq. unfold Telescope_init.
  assert (∀ a, a ∈ fields.*1 → pr !! a = None) as Hnone.
  { intros a (k & f & Hf & ->)%elem_fields_1.
    destruct Hp as [-> | ->]; [apply (props_lookup _ _ Hf)|apply lookup_empty]. }
  do 8 (rewrite init_step by (apply Hnone; compute_done)).
  change (mkState _ _ pr out _)
    with (mkState (alloc_params n ps) (<[n := Telescope_dict n]> ins) pr out (9 + n)).
  set (s1 := mkState _ _ pr out _).
  assert (insts s1 !! n = Some (Telescope_dict n)) as Hi by apply lookup_insert_eq.
  assert (∀ k f, fields !! k = Some f →
            ∃ p, params s1 !! (S k + n) = Some p ∧ uvp.name p = f.2 ∧
                 uvp.value p = PVal VNone) as Hps.
  { intros k f (p & Hs & Hn & Hv)%schema_fields. exists p.
    split; [|done]. by apply alloc_params_new. }
  assert (parameter_iter n s1 = Ok param_names) as Hiter.
  { destruct Hp as [-> | ->].
    - apply parameter_iter_full; [done..|].
      intros k f Hf. destruct (Hps k f Hf) as (p & ? & ? & ?). by exists p, VNone.
    - by apply parameter_iter_empty. }
  rewrite M_bind_eq. unfold read. rewrite Hiter.
  rewrite setup_all; [| done | | done | compute_done].
  - unfold mret, M_ret. do 2 f_equal. subst s1. cbn [params insts props stdout next].
    f_equal. destruct Hp as [-> | ->]; compute_done.
  - intros k f Hf. destruct (Hps k f Hf) as (p & ? & ? & ?). by exists p.
Qed.

(** ** Assigning to a field *)

Lemma setattr_field fuel s i k f p v :
  props s = Telescope_props → insts s !! i = Some (Telescope_dict i) →
  fields !! k = Some f → params s !! (S k + i) = Some p →
  setattr_ (S fuel) i f.2 v s = Ok (tt, store s (S k + i) (uvp.set_value p v)).
Proof.
  intros Hp Hi Hf Hl. rewrite setattr_unfold, Hp.
  destruct (props_lookup _ _ Hf) as [Hnone ->].
  rewrite M_bind_eq. unfold read.
  rewrite (getattr_attr fuel s i k f Hp Hi Hf).
  rewrite M_bind_eq. unfold param_set_value. rewrite Hl.
  rewrite setattr_unfold. cbn [params insts props stdout next].
  rewrite Hp, Hnone. unfold dict_set, store. cbn [params insts props stdout next].
  rewrite Hi. cbn [default].
  rewrite (insert_id (Telescope_dict i)) by apply (dict_lookup _ _ _ Hf).
  rewrite (insert_id (insts s) i) by done. by rewrite Hp.
Qed.

Lemma fields_lt k f : fields !! k = Some f → k < 8.
Proof. intros H. by apply lookup_lt_Some in H. Qed.

(** ** The invariant *)

Lemma init_no_inst i : insts init_state !! i = None.
Proof. apply lookup_empty. Qed.

Lemma wf_init : wf init_state.
Proof.
  split.
  - right. done.
  - intros i [d H]. by rewrite init_no_inst in H.
  - intros i j [d H]. by rewrite init_no_inst in H.
Qed.

Lemma wf_props_cases s : wf s → props s = Telescope_props ∨ props s = ∅.
Proof. intros [[?|[? _]] _ _]; auto. Qed.

Lemma wf_props_inst s i : wf s → is_Some (insts s !! i) → props s = Telescope_props.
Proof.
  intros [[Hp|[_ He]] _ _] [d H]; [done|]. by rewrite He, lookup_empty in H.
Qed.

Lemma wf_new s : wf s → wf (new_state s).
Proof.
  intros Hwf. assert (∀ j, is_Some (insts s !! j) → j + 9 ≤ next s) as Hlt.
  { intros j Hj. apply (wf_inst s Hwf j Hj). }
  split.
  - by left.
  - intros i Hi. unfold new_state in *. cbn [params insts props stdout next] in *.
    destruct (decide (i = next s)) as [->|Hne].
    + split; cbn [params insts props stdout next].
      * apply lookup_insert_eq.
      * lia.
      * intros k f (p & Hs & Hn & Hv)%schema_fields. exists p, VNone.
        split; [|done]. by apply alloc_params_new.
    + rewrite lookup_insert_ne in Hi by done.
      destruct (wf_inst s Hwf i Hi) as [Hd Hn Hp].
      split; cbn [params insts props stdout next].
      * by rewrite lookup_insert_ne.
      * lia.
      * intros k f Hf. destruct (Hp k f Hf) as (p & v & Hl & ?).
        exists p, v. split; [|done]. rewrite alloc_params_old; [done|].
        apply fields_lt in Hf. lia.
  - intros i j Hi Hj Hne. unfold new_state in *.
    cbn [params insts props stdout next] in *.
    destruct (decide (i = next s)) as [->|Hi'];
      destruct (decide (j = next s)) as [->|Hj']; [done|..].
    + rewrite lookup_insert_ne in Hj by done. right. by apply Hlt.
    + rewrite lookup_insert_ne in Hi by done. left. by apply Hlt.
    + rewrite lookup_insert_ne in Hi, Hj by done. by apply (wf_sep s Hwf).
Qed.

Lemma wf_store s i k f p v :
  wf s → is_Some (insts s !! i) → fields !! k = Some f →
  params s !! (S k + i) = Some p →
  wf (store s (S k + i) (uvp.set_value p (PVal v))).
Proof.
  intros Hwf Hi Hf Hl. split.
  - apply Hwf.
  - intros j Hj. cbn [store params insts props stdout next] in *.
    destruct (wf_inst s Hwf j Hj) as [Hd Hn Hp].
    split; cbn [store params insts props stdout next]; [done..|].
    intros k' f' Hf'. destruct (Hp k' f' Hf') as (p' & v' & Hl' & Hn' & Hv').
    destruct (decide (S k' + j = S k + i)) as [Heq|Hne].
    + rewrite Heq, lookup_insert_eq. exists (uvp.set_value p (PVal v)), v.
      split; [done|]. split; [|done].
      rewrite Heq, Hl in Hl'. injection Hl' as ->. done.
    + rewrite lookup_insert_ne by done. by exists p', v'.
  - apply Hwf.
Qed.

Lemma wf_setattr s i f v s' :
  wf s → is_Some (insts s !! i) → f ∈ fields.*2 →
  setattr i f (PVal v) s = Ok (tt, s') → wf s'.
Proof.
  intros IH Hi Hf Hset.
  apply elem_fields_2 in Hf as (k & fd & Hf & ->).
  destruct (wf_inst s IH i Hi) as [Hd _ Hp].
  destruct (Hp k fd Hf) as (p & v' & Hl & _).
  rewrite setattr_eq in Hset.
  rewrite (setattr_field _ s i k fd p _ (wf_props_inst s i IH Hi) Hd Hf Hl) in Hset.
  injection Hset as <-. by eapply wf_store.
Qed.

Lemma reachable_wf s : reachable s → wf s.
Proof.
  induction 1 as [|s i s' _ IH Hnew|s i f v s' _ IH Hi Hf Hset].
  - apply wf_init.
  - rewrite Telescope_new_eq in Hnew by by apply wf_props_cases.
    injection Hnew as _ <-. by apply wf_new.
  - by eapply wf_setattr.
Qed.

(** ** Reading and writing fields in a well-formed state *)

Lemma getattr_wf s i k f :
  wf s → is_Some (insts s !! i) → fields !! k = Some f →
  ∃ v, getattr i f.2 s = Ok (PVal v) ∧ field_val s i k = Some (PVal v).
Proof.
  intros Hwf Hi Hf. destruct (wf_inst s Hwf i Hi) as [Hd _ Hp].
  destruct (Hp k f Hf) as (p & v & Hl & _ & Hv). exists v. split.
  - rewrite getattr_eq, <- Hv.
    by apply (getattr_field _ s i k f p (wf_props_inst s i Hwf Hi)).
  - unfold field_val. by rewrite Hl, <- Hv.
Qed.

Lemma getattr_val s i k f v :
  wf s → is_Some (insts s !! i) → fields !! k = Some f →
  field_val s i k = Some v → getattr i f.2 s = Ok v.
Proof.
  intros Hwf Hi Hf Hv. destruct (getattr_wf s i k f Hwf Hi Hf) as (v' & -> & Hv').
  rewrite Hv in Hv'. by injection Hv' as ->.
Qed.

Lemma setattr_wf s i k f v :
  wf s → is_Some (insts s !! i) → fields !! k = Some f →
  ∃ s', setattr i f.2 (PVal v) s = Ok (tt, s') ∧ wf s' ∧
    insts s' = insts s ∧ props s' = props s ∧ stdout s' = stdout s ∧
    next s' = next s ∧ field_val s' i k = Some (PVal v) ∧
    ∀ j k', is_Some (insts s !! j) → k' < 8 → (j, k') ≠ (i, k) →
      field_val s' j k' = field_val s j k'.
Proof.
  intros Hwf Hi Hf. destruct (wf_inst s Hwf i Hi) as [Hd _ Hp].
  destruct (Hp k f Hf) as (p & v' & Hl & _).
  eexists. split.
  { rewrite setattr_eq.
    apply (setattr_field _ s i k f p _ (wf_props_inst s i Hwf Hi) Hd Hf Hl). }
  split; [by eapply wf_store|]. do 4 (split; [done|]).
  unfold field_val, store. cbn [params insts props stdout next]. split.
  - by rewrite lookup_insert_eq.
  - intros j k' Hj Hk' Hne. rewrite lookup_insert_ne; [done|].
    apply fields_lt in Hf. intros Heq.
    destruct (decide (i = j)) as [->|Hij].
    + apply Hne. f_equal. lia.
    + destruct (wf_sep s Hwf i j Hi Hj Hij); lia.
Qed.

Lemma Telescope_new_wf s :
  wf s →
  ∃ s', Telescope_new s = Ok (next s, s') ∧ wf s' ∧
    is_Some (insts s' !! next s) ∧ stdout s' = stdout s ∧
    (∀ j, is_Some (insts s !! j) → is_Some (insts s' !! j)) ∧
    (∀ k, k < 8 → field_val s' (next s) k = Some (PVal VNone)) ∧
    ∀ j k, is_Some (insts s !! j) → k < 8 → field_val s' j k = field_val s j k.
Proof.
  intros Hwf. exists (new_state s). split; [by apply Telescope_new_eq, wf_props_cases|].
  split; [by apply wf_new|]. unfold new_state, field_val.
  cbn [params insts props stdout next]. split; [by rewrite lookup_insert_eq|].
  split; [done|]. split; [|split].
  - intros j Hj. destruct (decide (next s = j)) as [->|Hne].
    + by rewrite lookup_insert_eq.
    + by rewrite lookup_insert_ne.
  - intros k Hk. destruct (lookup_lt_is_Some_2 fields k Hk) as [f Hf].
    destruct (schema_fields k f Hf) as (p & Hs & _ & Hv).
    by rewrite (alloc_params_new _ _ _ _ Hs), <- Hv.
  - intros j k Hj Hk. rewrite alloc_params_old; [done|].
    pose proof (io_next s j (wf_inst s Hwf j Hj)). lia.
Qed.

(** ** Equality *)

Lemma param_at_wf s i k f :
  wf s → is_Some (insts s !! i) → fields !! k = Some f →
  ∃ p, param_at s i f.1 = Some p ∧ params s !! (S k + i) = Some p.
Proof.
  intros Hwf Hi Hf. destruct (wf_inst s Hwf i Hi) as [Hd _ Hp].
  destruct (Hp k f Hf) as (p & v & Hl & _). exists p. split; [|done].
  unfold param_at. rewrite Hd. cbn [mbind option_bind].
  destruct (dict_lookup i k f Hf) as [-> _]. done.
Qed.

(** The parameters of a Telescope are the eight that [parameter_iter] yields. *)
Lemma param_at_names s i p :
  wf s → is_Some (insts s !! i) →
  is_Some (param_at s i p) ↔ p ∈ param_names.
Proof.
  intros Hwf Hi. split.
  - intros [x Hx]. unfold param_at in Hx.
    rewrite (io_dict s i (wf_inst s Hwf i Hi)) in Hx. cbn [mbind option_bind] in Hx.
    destruct (Telescope_dict i !! p) as [v|] eqn:Hd; [|done].
    apply (elem_of_list_to_map_2 (M := gmap string)) in Hd.
    apply (list_elem_of_fmap_2 fst) in Hd. revert Hd. clear.
    cbn. unfold param_names. rewrite !elem_of_cons, !elem_of_nil. tauto.
  - intros Hp. assert (p ∈ fields.*1) as (k & f & Hf & ->)%elem_fields_1.
    { revert Hp. clear. cbn. unfold param_names.
      rewrite !elem_of_cons, !elem_of_nil. tauto. }
    destruct (param_at_wf s i k f Hwf Hi Hf) as (x & -> & _). by eexists.
Qed.

Section equality.
Variable ne : pyobj → pyobj → bool.

Lemma eq_loop_wf s a b :
  wf s → is_Some (insts s !! a) → is_Some (insts s !! b) →
  ∀ ps isequal examined, Forall (λ p, p ∈ fields.*1) ps →
  ∃ r, eq_loop ne a b ps isequal examined s = Ok (r, (examined ++ ps)%list) ∧
       (r = true ↔ isequal = true ∧ Forall (pair_equal ne s a b) ps).
Proof.
  intros Hwf Ha Hb. induction ps as [|p ps IH]; intros isequal examined Hps.
  - exists isequal. rewrite app_nil_r. split; [done|]. intuition.
  - apply Forall_cons in Hps as [(k & f & Hf & ->)%elem_fields_1 Hps].
    destruct (param_at_wf s a k f Hwf Ha Hf) as (pa & Hpa & Hla).
    destruct (param_at_wf s b k f Hwf Hb Hf) as (pb & Hpb & Hlb).
    destruct (IH (if ne (OParam pa) (OParam pb) then false else isequal)
                 (examined ++ [f.1])%list Hps) as (r & Hr & Hiff).
    exists r. split.
    + cbn [eq_loop]. rewrite R_bind_eq, getattr_eq.
      rewrite (getattr_attr _ s a k f (wf_props_inst s a Hwf Ha)
                 (io_dict s a (wf_inst s Hwf a Ha)) Hf).
      rewrite R_bind_eq.
      rewrite (getattr_attr _ s b k f (wf_props_inst s b Hwf Hb)
                 (io_dict s b (wf_inst s Hwf b Hb)) Hf).
      rewrite R_bind_eq. unfold deref at 1. rewrite Hla.
      rewrite R_bind_eq. unfold deref at 1. rewrite Hlb.
      rewrite Hr. by rewrite <- app_assoc.
    + rewrite Hiff, Forall_cons. unfold pair_equal at 2.
      split.
      * intros [Hif Hall]. destruct (ne (OParam pa) (OParam pb)) eqn:E; [done|].
        split; [done|]. split; [|done]. by exists pa, pb.
      * intros (-> & (pa' & pb' & Hpa' & Hpb' & Hne) & Hall).
        rewrite Hpa in Hpa'. rewrite Hpb in Hpb'.
        injection Hpa' as <-. injection Hpb' as <-. by rewrite Hne.
Qed.

Lemma Telescope_eq_examined_wf s a b :
  wf s → is_Some (insts s !! a) → is_Some (insts s !! b) →
  ∃ r, Telescope_eq_examined ne a (PTelescope b) s = Ok ((r, param_names), s) ∧
       (r = true ↔ Forall (pair_equal ne s a b) param_names).
Proof.
  intros Hwf Ha Hb.
  destruct (eq_loop_wf s a b Hwf Ha Hb param_names true []) as (r & Hr & Hiff);
    [compute_done|].
  exists r. split; [|by rewrite Hiff; intuition].
  unfold Telescope_eq_examined. rewrite M_bind_eq. unfold read at 1.
  rewrite (parameter_iter_full s a (io_dict s a (wf_inst s Hwf a Ha))
             (wf_props_inst s a Hwf Ha)).
  - unfold read. by rewrite Hr.
  - intros k f Hf. apply (io_param s a (wf_inst s Hwf a Ha) k f Hf).
Qed.

Lemma Telescope_eq_other s a other :
  (∀ o, other ≠ PTelescope o) →
  Telescope_eq ne a other s =
  Ok (false, mkState (params s) (insts s) (props s)
                     (stdout s ++ ["Classes do not match"])%list (next s)).
Proof. intros H. destruct other; try done. by destruct (H l). Qed.
End equality.

Lemma deref_ok v s : ∃ o, deref v s = Ok o.
Proof.
  destruct v as [| l | | |]; try by eexists.
  unfold deref. destruct (params s !! l); by eexists.
Qed.

(** The loop returns exactly when every name can be read on both sides,
    whatever [isequal] is when it starts. *)
Lemma eq_loop_returns ne s a b ps : ∀ isequal examined,
  (∃ r, eq_loop ne a b ps isequal examined s = Ok r) ↔
  Forall (λ p, readable s a p ∧ readable s b p) ps.
Proof.
  induction ps as [|p ps IH]; intros isequal examined.
  - split; [constructor|]. intros _. by eexists.
  - cbn [eq_loop]. rewrite R_bind_eq, Forall_cons. unfold readable at 1 2.
    destruct (getattr a p s) as [va|ea].
    2: { split; [by intros [? ?]|]. by intros [[[? ?] _] _]. }
    cbv beta iota. rewrite R_bind_eq.
    destruct (getattr b p s) as [vb|eb].
    2: { split; [by intros [? ?]|]. by intros [[_ [? ?]] _]. }
    cbv beta iota. rewrite R_bind_eq.
    destruct (deref_ok va s) as [l ->]. cbv beta iota. rewrite R_bind_eq.
    destruct (deref_ok vb s) as [r ->]. cbv beta iota.
    rewrite IH. split; [|tauto]. intros H. split; [|done]. split; by eexists.
Qed.

Lemma Telescope_eq_returns ne s a b :
  (∃ r s', Telescope_eq ne a (PTelescope b) s = Ok (r, s')) ↔
  ∃ ps, parameter_iter a s = Ok ps ∧
        Forall (λ p, readable s a p ∧ readable s b p) ps.
Proof.
  unfold Telescope_eq, Telescope_eq_examined. rewrite !M_bind_eq. unfold read at 1.
  destruct (parameter_iter a s) as [ps|e].
  2: { split; [by intros (? & ? & ?)|]. by intros (? & ? & _). }
  cbv beta iota. unfold read.
  pose proof (eq_loop_returns ne s a b ps true []) as H.
  destruct (eq_loop ne a b ps true [] s) as [r|e].
  - split.
    + intros _. exists ps. split; [done|]. apply H. by eexists.
    + intros _. by eexists _, _.
  - split; [by intros (? & ? & ?)|].
    intros (ps' & Hps & Hall). injection Hps as <-.
    apply H in Hall as [? ?]. done.
Qed.

(** ** The fields of an instance, as a list *)

Lemma fields_of_lookup s i k :
  k < 8 → fields_of s i !! k = Some (field_val s i k).
Proof.
  intros H. unfold fields_of. rewrite list_lookup_fmap, lookup_seq_lt by done. done.
Qed.

Lemma fields_of_ext s s' i :
  (∀ k, k < 8 → field_val s' i k = field_val s i k) → fields_of s' i = fields_of s i.
Proof.
  intros H. unfold fields_of. apply list_fmap_ext. intros k x Hx.
  apply lookup_seq in Hx as [-> Hx]. apply H. lia.
Qed.

Lemma getattr_fields_of s i k f v :
  wf s → is_Some (insts s !! i) → fields !! k = Some f →
  fields_of s i !! k = Some (Some v) → getattr i f.2 s = Ok v.
Proof.
  intros Hwf Hi Hf Hv. rewrite fields_of_lookup in Hv by by eapply fields_lt.
  injection Hv as Hv. by eapply getattr_val.
Qed.

Lemma setattr_fields s i k f v :
  wf s → is_Some (insts s !! i) → fields !! k = Some f →
  ∃ s', setattr i f.2 (PVal v) s = Ok (tt, s') ∧ wf s' ∧
    insts s' = insts s ∧ props s' = props s ∧ stdout s' = stdout s ∧
    next s' = next s ∧
    fields_of s' i = <[k := Some (PVal v)]> (fields_of s i) ∧
    ∀ j, is_Some (insts s !! j) → j ≠ i → fields_of s' j = fields_of s j.
Proof.
  intros Hwf Hi Hf.
  destruct (setattr_wf s i k f v Hwf Hi Hf)
    as (s' & Hset & Hwf' & Hins & Hpr & Hout & Hnext & Hv & Hother).
  exists s'. do 6 (split; [done|]). split.
  - apply list_eq. intros k'. destruct (decide (k' < 8)) as [Hk'|Hk'].
    + rewrite fields_of_lookup by done. destruct (decide (k = k')) as [<-|Hne].
      * rewrite list_lookup_insert_eq; [by rewrite Hv|].
        unfold fields_of. by rewrite length_fmap, length_seq.
      * rewrite list_lookup_insert_ne, fields_of_lookup by done.
        f_equal. apply Hother; [done..|congruence].
    + rewrite !lookup_ge_None_2; [done|..];
        unfold fields_of; rewrite ?length_insert, length_fmap, length_seq; lia.
  - intros j Hj Hne. apply fields_of_ext. intros k' Hk'.
    apply Hother; [done..|congruence].
Qed.

Lemma Telescope_new_fields s :
  wf s →
  ∃ s', Telescope_new s = Ok (next s, s') ∧ wf s' ∧
    is_Some (insts s' !! next s) ∧ stdout s' = stdout s ∧
    (∀ j, is_Some (insts s !! j) → is_Some (insts s' !! j)) ∧
    fields_of s' (next s) = replicate 8 (Some (PVal VNone)) ∧
    ∀ j, is_Some (insts s !! j) → fields_of s' j = fields_of s j.
Proof.
  intros Hwf.
  destruct (Telescope_new_wf s Hwf) as (s' & Hnew & Hwf' & Hi & Hout & Hold & Hv & Hother).
  exists s'. do 5 (split; [done|]). split.
  - unfold fields_of. cbn [seq fmap list_fmap replicate].
    by rewrite !Hv by lia.
  - intros j Hj. apply fields_of_ext. intros k Hk. by apply Hother.
Qed.

(** ** The loop of [telescopes] *)

Lemma dict_getattr_key telescope a s :
  a ∉ dict_attrs → dict_getattr telescope a s = Raise (AttributeError a).
Proof. intros H. unfold dict_getattr. by rewrite decide_False. Qed.

Section table.
Variable XYZ : pyval → pyval → pyval → result (pyval * pyval * pyval).
Variable LLA : pyval → result (pyval * pyval * pyval).

(** The first read of the entry, [telescope.name] on line 114, raises. *)
Lemma telescopes_body_raises s telescope telescopes :
  wf s → telescopes_body XYZ LLA telescope telescopes s = Raise (AttributeError "name").
Proof.
  intros Hwf. destruct (Telescope_new_fields s Hwf) as (s0 & Hnew & _).
  unfold telescopes_body. rewrite M_bind_eq, Hnew. cbv beta iota.
  rewrite M_bind_eq, dict_getattr_key; [done|compute_done].
Qed.

Lemma telescopes_loop_raises s telescope dict_list telescopes :
  wf s →
  telescopes_loop XYZ LLA (telescope :: dict_list) telescopes s
  = Raise (AttributeError "name").
Proof.
  intros Hwf. cbn [telescopes_loop]. by rewrite M_bind_eq, telescopes_body_raises.
Qed.
End table.


Lemma run_new_reachable s : reachable s → reachable (run Telescope_new s).
Proof.
  intros H. pose proof (Telescope_new_eq s (wf_props_cases s (reachable_wf s H))) as E.
  apply (reach_new s (next s)); [done|]. unfold run. by rewrite E.
Qed.

Lemma run_set_reachable s i f v :
  reachable s → is_Some (insts s !! i) → f ∈ fields.*2 →
  reachable (run (setattr i f (PVal v)) s).
Proof.
  intros H Hi Hf. pose proof Hf as (k & fd & Hfd & ->)%elem_fields_2.
  destruct (setattr_wf s i k fd v (reachable_wf s H) Hi Hfd) as (s' & E & _).
  apply (reach_set s i fd.2 v); [done..|]. unfold run. by rewrite E.
Qed.

Lemma two_telescopes_reachable : reachable two_telescopes.
Proof.
  apply run_set_reachable.
  - do 2 apply run_new_reachable. apply reach_init.
  - compute_done.
  - compute_done.
Qed.

Lemma two_telescopes_insts :
  is_Some (insts two_telescopes !! 0) ∧ is_Some (insts two_telescopes !! 9).
Proof. split; compute_done. Qed.

(** * Properties stated by the specification *)

(** C10: [a != b] is the negation of [a == b], whatever the operands: the
    same state results, and an exception of [__eq__] is the exception of
    [__ne__]. *)
Theorem Telescope_ne_negates ne (s : state) (a : loc) (other : pyval) :
  Telescope_ne ne a other s =
  match Telescope_eq ne a other s with
  | Ok (r, s') => Ok (negb r, s')
  | Raise e => Raise e
  end.
Proof.
  unfold Telescope_ne. rewrite M_bind_eq.
  destruct (Telescope_eq ne a other s) as [[r s']|e]; reflexivity.
Qed.

(** C1: on two Telescopes, [__eq__] returns True iff the parameters under
    every name compare equal, and prints nothing; on an operand that is no
    Telescope it returns False without raising and prints a line, so the two
    cases leave different states. *)
Theorem Telescope_eq_correct ne s a b other :
  reachable s → is_Some (insts s !! a) → is_Some (insts s !! b) →
  (∀ o, other ≠ PTelescope o) →
  (∃ r, Telescope_eq ne a (PTelescope b) s = Ok (r, s) ∧
        (r = true ↔ ∀ p, is_Some (param_at s a p) → pair_equal ne s a b p)) ∧
  (∃ s', Telescope_eq ne a other s = Ok (false, s') ∧
         stdout s' = (stdout s ++ ["Classes do not match"])%list ∧
         stdout s' ≠ stdout s).
Proof.
  intros Hs Ha Hb Hother. apply reachable_wf in Hs. split.
  - destruct (Telescope_eq_examined_wf ne s a b Hs Ha Hb) as (r & Hr & Hiff).
    exists r. split.
    + unfold Telescope_eq. by rewrite M_bind_eq, Hr.
    + rewrite Hiff, Forall_forall. split; intros H p Hp; apply H.
      * by apply (param_at_names s a p Hs Ha).
      * by apply (param_at_names s a p Hs Ha).
  - eexists. split; [by apply Telescope_eq_other|]. split; [done|].
    cbn [stdout]. intros H. apply (f_equal length) in H.
    rewrite length_app in H. simpl in H. lia.
Qed.

Lemma Telescope_eq_correct_witness :
  reachable two_telescopes ∧
  (∃ r, Telescope_eq UVParameter_ne 0 (PTelescope 9) two_telescopes
          = Ok (r, two_telescopes) ∧
        (r = true ↔ ∀ p, is_Some (param_at two_telescopes 0 p) →
                      pair_equal UVParameter_ne two_telescopes 0 9 p)) ∧
  (∃ s', Telescope_eq UVParameter_ne 0 (PVal VNone) two_telescopes = Ok (false, s') ∧
         stdout s' = (stdout two_telescopes ++ ["Classes do not match"])%list ∧
         stdout s' ≠ stdout two_telescopes).
Proof.
  split; [exact two_telescopes_reachable|].
  apply (Telescope_eq_correct UVParameter_ne two_telescopes 0 9 (PVal VNone)).
  - exact two_telescopes_reachable.
  - exact (proj1 two_telescopes_insts).
  - exact (proj2 two_telescopes_insts).
  - intros o H. discriminate H.
Defined.

(** C7: on two Telescopes [__eq__] never raises and returns a bool, False
    as soon as the pair under one name differs, wherever that pair comes in
    the loop.  The loop does not stop at a mismatch: in any state whatever,
    [__eq__] returns exactly when every name that [parameter_iter] yields
    can be read on both operands, so a name that cannot be read makes it
    raise also when an earlier pair has differed already. *)
Theorem Telescope_eq_never_raises ne s a b :
  reachable s → is_Some (insts s !! a) → is_Some (insts s !! b) →
  (∃ r : bool,
     Telescope_eq ne a (PTelescope b) s = Ok (r, s) ∧
     (r = true ↔ Forall (pair_equal ne s a b) param_names) ∧
     (r = false ↔ Exists (λ p, ¬ pair_equal ne s a b p) param_names)) ∧
  parameter_iter a s = Ok param_names ∧
  Forall (λ p, readable s a p ∧ readable s b p) param_names ∧
  ∀ s0, (∃ r s', Telescope_eq ne a (PTelescope b) s0 = Ok (r, s')) ↔
        ∃ ps, parameter_iter a s0 = Ok ps ∧
              Forall (λ p, readable s0 a p ∧ readable s0 b p) ps.
Proof.
  intros Hs Ha Hb. apply reachable_wf in Hs.
  destruct (Telescope_eq_examined_wf ne s a b Hs Ha Hb) as (r & Hr & Hiff).
  assert (Telescope_eq ne a (PTelescope b) s = Ok (r, s)) as Heq.
  { unfold Telescope_eq. by rewrite M_bind_eq, Hr. }
  assert (parameter_iter a s = Ok param_names) as Hps.
  { apply (parameter_iter_full s a (io_dict s a (wf_inst s Hs a Ha))
             (wf_props_inst s a Hs Ha)).
    intros k f Hf. apply (io_param s a (wf_inst s Hs a Ha) k f Hf). }
  split; [|split; [done|split]].
  - exists r. split; [done|]. split; [done|].
    rewrite <- not_true_iff_false, Hiff. split.
    + intros H. apply not_Forall_Exists; [|done].
      intros p. unfold Decision. destruct (param_at s a p) as [pa|] eqn:Ea.
      2: { right. intros (? & ? & ? & _). congruence. }
      destruct (param_at s b p) as [pb|] eqn:Eb.
      2: { right. intros (? & ? & _ & ? & _). congruence. }
      destruct (ne (OParam pa) (OParam pb)) eqn:En.
      * right. intros (? & ? & ? & ? & ?). congruence.
      * left. by exists pa, pb.
    + intros H Hall. apply Exists_exists in H as (p & Hp & Hn).
      rewrite Forall_forall in Hall. by apply Hn, Hall.
  - destruct (proj1 (Telescope_eq_returns ne s a b)) as (ps & Hps' & Hall).
    + by eexists _, _.
    + congruence.
  - intros s0. apply Telescope_eq_returns.
Qed.

Lemma Telescope_eq_never_raises_witness :
  reachable two_telescopes ∧
  (∃ r : bool,
     Telescope_eq UVParameter_ne 0 (PTelescope 9) two_telescopes
       = Ok (r, two_telescopes) ∧
     (r = true ↔ Forall (pair_equal UVParameter_ne two_telescopes 0 9) param_names) ∧
     (r = false ↔
      Exists (λ p, ¬ pair_equal UVParameter_ne two_telescopes 0 9 p) param_names)) ∧
  parameter_iter 0 two_telescopes = Ok param_names ∧
  Forall (λ p, readable two_telescopes 0 p ∧ readable two_telescopes 9 p) param_names ∧
  ∀ s0, (∃ r s', Telescope_eq UVParameter_ne 0 (PTelescope 9) s0 = Ok (r, s')) ↔
        ∃ ps, parameter_iter 0 s0 = Ok ps ∧
              Forall (λ p, readable s0 0 p ∧ readable s0 9 p) ps.
Proof.
  split; [exact two_telescopes_reachable|].
  exact (Telescope_eq_never_raises UVParameter_ne two_telescopes 0 9
           two_telescopes_reachable (proj1 two_telescopes_insts)
           (proj2 two_telescopes_insts)).
Defined.

(** C9: the accessors are properties of the class, which the instances
    share, yet assigning a field of one Telescope changes that field there
    and leaves the same field of every other Telescope as it was. *)
Theorem setattr_leaves_other_instance s a b f v :
  reachable s → is_Some (insts s !! a) → is_Some (insts s !! b) → a ≠ b →
  f ∈ fields.*2 →
  is_Some (props s !! f) ∧
  ∃ s', setattr a f (PVal v) s = Ok (tt, s') ∧ props s' = props s ∧
        getattr a f s' = Ok (PVal v) ∧
        getattr b f s' = getattr b f s.
Proof.
  intros Hs Ha Hb Hab (k & fd & Hf & ->)%elem_fields_2. apply reachable_wf in Hs.
  split.
  { rewrite (wf_props_inst s a Hs Ha). destruct (props_lookup k fd Hf) as [_ ->]. done. }
  destruct (setattr_wf s a k fd v Hs Ha Hf)
    as (s' & Hset & Hwf' & Hins & Hpr & _ & _ & Hv & Hother).
  exists s'. split; [done|]. split; [done|]. split.
  - apply (getattr_val s' a k fd); [done|by rewrite Hins|done..].
  - destruct (getattr_wf s b k fd Hs Hb Hf) as (vb & -> & Hvb).
    apply (getattr_val s' b k fd); [done|by rewrite Hins|done|].
    rewrite Hother; [done..|by eapply fields_lt|congruence].
Qed.

Lemma setattr_leaves_other_instance_witness :
  reachable two_telescopes ∧
  is_Some (props two_telescopes !! "latitude") ∧
  ∃ s', setattr 9 "latitude" (PVal (VFloat 1.5%float)) two_telescopes = Ok (tt, s') ∧
        props s' = props two_telescopes ∧
        getattr 9 "latitude" s' = Ok (PVal (VFloat 1.5%float)) ∧
        getattr 0 "latitude" s' = getattr 0 "latitude" two_telescopes.
Proof.
  split; [exact two_telescopes_reachable|].
  apply (setattr_leaves_other_instance two_telescopes 9 0 "latitude").
  - exact two_telescopes_reachable.
  - exact (proj2 two_telescopes_insts).
  - exact (proj1 two_telescopes_insts).
  - lia.
  - compute_done.
Defined.

(** C8, as stated, fails on a new Telescope: it has no [isValid], and asking
    for it raises AttributeError. *)
Lemma isValid_counterexample :
  getattr 0 "isValid" (run Telescope_new init_state) = Raise (AttributeError "isValid").
Proof. vm_compute. reflexivity. Qed.

(** C8, amended: no Telescope has an attribute [isValid]: [dir] does not list
    it and access to it raises AttributeError. *)
Theorem Telescope_has_no_isValid s i :
  reachable s → is_Some (insts s !! i) →
  getattr i "isValid" s = Raise (AttributeError "isValid") ∧
  ∃ names, dir i s = Ok names ∧ "isValid" ∉ names.
Proof.
  intros Hs Hi. apply reachable_wf in Hs.
  pose proof (wf_props_inst s i Hs Hi) as Hp.
  pose proof (io_dict s i (wf_inst s Hs i Hi)) as Hd. split.
  - rewrite getattr_eq.
    apply (getattr_missing _ s i (Telescope_dict i)); [|done|..]; try compute_done.
    rewrite Hp. compute_done.
  - destruct (dir_full s i Hp Hd) as (l & Hl & _ & Hall). exists l. split; [done|].
    intros Hin. rewrite Forall_forall in Hall.
    destruct (Hall _ Hin) as [H|[H|[H|H]]]; revert H; compute_done.
Qed.

Lemma Telescope_has_no_isValid_witness :
  reachable two_telescopes ∧
  getattr 9 "isValid" two_telescopes = Raise (AttributeError "isValid") ∧
  ∃ names, dir 9 two_telescopes = Ok names ∧ "isValid" ∉ names.
Proof.
  split; [exact two_telescopes_reachable|].
  exact (Telescope_has_no_isValid two_telescopes 9 two_telescopes_reachable
           (proj2 two_telescopes_insts)).
Defined.





(** C3: the tolerance [__init__] gives latitude and longitude, on a new
    Telescope.  It is 2 pi / 86400000 = 7.27e-8 rad, which is 15
    milliarcseconds, not the 1 milliarcsecond (4.85e-9 rad) its comment and
    the claim name. *)
Theorem angle_tols_is_15_milliarcseconds :
  uvp.tols <$> param_at (run Telescope_new init_state) 0 "_latitude"
    = Some (Some angle_tols) ∧
  uvp.tols <$> param_at (run Telescope_new init_state) 0 "_longitude"
    = Some (Some angle_tols) ∧
  angle_tols = 7.2722052166430405e-08%float ∧
  (4.84e-9 <? milliarcsecond)%float = true ∧
  (milliarcsecond <? 4.85e-9)%float = true ∧
  (14.99 * milliarcsecond <? angle_tols)%float = true ∧
  (angle_tols <? 15.01 * milliarcsecond)%float = true.
Proof. repeat split; vm_compute; reflexivity. Qed.

(** * Further properties of the code *)

(** X1: on every Telescope [parameter_iter] yields the eight attributes that
    hold parameter objects, in the sorted order of [dir], and never a
    property, a method or a dunder name. *)
Theorem parameter_iter_yields_params s i :
  reachable s → is_Some (insts s !! i) →
  parameter_iter i s = Ok param_names.
Proof.
  intros Hs%reachable_wf Hi. destruct (wf_inst s Hs i Hi) as [Hd _ Hp].
  by apply parameter_iter_full; [|eapply wf_props_inst|].
Qed.

Lemma parameter_iter_yields_params_witness :
  reachable two_telescopes ∧ parameter_iter 9 two_telescopes = Ok param_names.
Proof.
  split; [exact two_telescopes_reachable|].
  exact (parameter_iter_yields_params two_telescopes 9 two_telescopes_reachable
           (proj2 two_telescopes_insts)).
Defined.

(** X2: [Telescope()] succeeds in every reachable state, prints nothing, and
    every field of the new instance reads as None. *)
Theorem Telescope_new_fields_None s f :
  reachable s → f ∈ fields.*2 →
  ∃ s', Telescope_new s = Ok (next s, s') ∧ reachable s' ∧
        stdout s' = stdout s ∧ getattr (next s) f s' = Ok (PVal VNone).
Proof.
  intros Hs (k & fd & Hf & ->)%elem_fields_2.
  destruct (Telescope_new_wf s (reachable_wf s Hs))
    as (s' & Hnew & Hwf & Hi & Hout & _ & Hv & _).
  exists s'. split; [done|]. split; [by eapply reach_new|]. split; [done|].
  apply (getattr_val s' (next s) k fd); [done..|]. apply Hv. by eapply fields_lt.
Qed.

Lemma Telescope_new_fields_None_witness :
  reachable two_telescopes ∧
  ∃ s', Telescope_new two_telescopes = Ok (next two_telescopes, s') ∧ reachable s' ∧
        stdout s' = stdout two_telescopes ∧
        getattr (next two_telescopes) "altitude" s' = Ok (PVal VNone).
Proof.
  split; [exact two_telescopes_reachable|].
  apply (Telescope_new_fields_None two_telescopes "altitude").
  - exact two_telescopes_reachable.
  - compute_done.
Defined.

(** * The code on the sample objects *)

Example eq_same_telescope :
  result_of (Telescope_eq UVParameter_ne 0 (PTelescope 0) two_telescopes) = Ok true.
Proof. vm_compute. reflexivity. Qed.

Example eq_other_latitude :
  result_of (Telescope_eq UVParameter_ne 0 (PTelescope 9) two_telescopes) = Ok false ∧
  result_of (Telescope_ne UVParameter_ne 0 (PTelescope 9) two_telescopes) = Ok true.
Proof. split; vm_compute; reflexivity. Qed.

Example eq_not_a_telescope :
  result_of (Telescope_eq UVParameter_ne 0 (Pstr "HERA") two_telescopes) = Ok false ∧
  stdout (run (Telescope_eq UVParameter_ne 0 (Pstr "HERA")) two_telescopes)
  = ["Classes do not match"].
Proof. split; vm_compute; reflexivity. Qed.

(** The comparison reads on after a mismatch: the latitudes of the two
    Telescopes differ, and with [_z_telescope], the last name of the loop,
    deleted from the second, [__eq__] raises where a loop that stopped at the
    mismatch would return False. *)
Example eq_reads_on_after_mismatch :
  Telescope_eq UVParameter_ne 0 (PTelescope 9) (without_attr 9 "_z_telescope" two_telescopes)
  = Raise (AttributeError "_z_telescope").
Proof. vm_compute. reflexivity. Qed.

(** The loop body on an entry with the keys of the source's entries. *)
Example full_entry_raises :
  result_of (telescopes_body sample_XYZ_from_LatLonAlt sample_LatLonAlt_from_XYZ
               full_entry [] init_state)
  = Raise (AttributeError "name").
Proof. vm_compute. reflexivity. Qed.

(** * More properties of the accessors *)

Lemma fields_names_inj k k' f f' :
  fields !! k = Some f → fields !! k' = Some f' → f.2 = f'.2 → k = k'.
Proof. intros H H'. each_field H; each_field H'; intros E; done. Qed.

Lemma set_value_twice p v w : uvp.set_value (uvp.set_value p v) w = uvp.set_value p w.
Proof. by destruct p. Qed.

(** The assignment through a property, with the state it leaves. *)
Lemma setattr_store s i k f v :
  wf s → is_Some (insts s !! i) → fields !! k = Some f →
  ∃ p, params s !! (S k + i) = Some p ∧
       setattr i f.2 v s = Ok (tt, store s (S k + i) (uvp.set_value p v)).
Proof.
  intros Hwf Hi Hf. destruct (wf_inst s Hwf i Hi) as [Hd _ Hp].
  destruct (Hp k f Hf) as (p & v' & Hl & _). exists p. split; [done|].
  rewrite setattr_eq.
  apply (setattr_field _ s i k f p _ (wf_props_inst s i Hwf Hi) Hd Hf Hl).
Qed.

Lemma slots_apart s i j k k' :
  wf s → is_Some (insts s !! i) → is_Some (insts s !! j) → k < 8 → k' < 8 →
  (i, k) ≠ (j, k') → S k + i ≠ S k' + j.
Proof.
  intros Hwf Hi Hj Hk Hk' Hne Heq. destruct (decide (i = j)) as [->|Hij].
  - apply Hne. f_equal. lia.
  - destruct (wf_sep s Hwf i j Hi Hj Hij); lia.
Qed.

(** X5: what is assigned to a field is what the field then reads, the other
    seven fields of the instance read as before, and nothing is printed. *)
Theorem setattr_then_getattr s i f v :
  reachable s → is_Some (insts s !! i) → f ∈ fields.*2 →
  ∃ s', setattr i f (PVal v) s = Ok (tt, s') ∧
        insts s' = insts s ∧ stdout s' = stdout s ∧
        getattr i f s' = Ok (PVal v) ∧
        ∀ g, g ∈ fields.*2 → g ≠ f → getattr i g s' = getattr i g s.
Proof.
  intros Hs%reachable_wf Hi (k & fd & Hf & ->)%elem_fields_2.
  destruct (setattr_wf s i k fd v Hs Hi Hf)
    as (s' & Hset & Hwf' & Hins & _ & Hout & _ & Hv & Hother).
  exists s'. do 3 (split; [done|]).
  assert (is_Some (insts s' !! i)) as Hi' by by rewrite Hins.
  split; [by apply (getattr_val s' i k fd)|].
  intros g (k' & gd & Hg & ->)%elem_fields_2 E.
  destruct (getattr_wf s i k' gd Hs Hi Hg) as (w & -> & Hw).
  apply (getattr_val s' i k' gd); [done..|].
  rewrite Hother; [done|done|by eapply fields_lt|].
  intros [=]. subst k'. rewrite Hf in Hg. by injection Hg as <-.
Qed.

Lemma setattr_then_getattr_witness :
  reachable two_telescopes ∧
  ∃ s', setattr 0 "altitude" (PVal (VFloat 1073.0%float)) two_telescopes = Ok (tt, s') ∧
        insts s' = insts two_telescopes ∧ stdout s' = stdout two_telescopes ∧
        getattr 0 "altitude" s' = Ok (PVal (VFloat 1073.0%float)) ∧
        ∀ g, g ∈ fields.*2 → g ≠ "altitude" →
             getattr 0 g s' = getattr 0 g two_telescopes.
Proof.
  split; [exact two_telescopes_reachable|].
  apply (setattr_then_getattr two_telescopes 0 "altitude" (VFloat 1073.0%float)).
  - exact two_telescopes_reachable.
  - exact (proj1 two_telescopes_insts).
  - compute_done.
Defined.

(** X6: the last assignment to a field wins: assigning twice leaves the very
    state that the second assignment alone leaves. *)
Theorem setattr_last_wins s i f v w :
  reachable s → is_Some (insts s !! i) → f ∈ fields.*2 →
  ∃ s1 s2, setattr i f (PVal v) s = Ok (tt, s1) ∧
           setattr i f (PVal w) s1 = Ok (tt, s2) ∧
           setattr i f (PVal w) s = Ok (tt, s2).
Proof.
  intros Hs%reachable_wf Hi (k & fd & Hf & ->)%elem_fields_2.
  destruct (setattr_store s i k fd (PVal v) Hs Hi Hf) as (p & Hl & Hv).
  destruct (setattr_store s i k fd (PVal w) Hs Hi Hf) as (p' & Hl' & Hw).
  rewrite Hl in Hl'. injection Hl' as <-.
  pose proof (wf_store s i k fd p v Hs Hi Hf Hl) as Hwf1.
  destruct (setattr_store _ i k fd (PVal w) Hwf1 Hi Hf) as (p1 & Hl1 & Hw1).
  unfold store at 1 in Hl1. cbn [params] in Hl1.
  rewrite lookup_insert_eq in Hl1. injection Hl1 as <-.
  eexists _, _. split; [exact Hv|]. split; [|exact Hw].
  rewrite Hw1. unfold store. cbn [params insts props stdout next].
  by rewrite insert_insert_eq, set_value_twice.
Qed.

Lemma setattr_last_wins_witness :
  reachable two_telescopes ∧
  ∃ s1 s2,
    setattr 0 "latitude" (PVal (VFloat 0.25%float)) two_telescopes = Ok (tt, s1) ∧
    setattr 0 "latitude" (PVal VNone) s1 = Ok (tt, s2) ∧
    setattr 0 "latitude" (PVal VNone) two_telescopes = Ok (tt, s2).
Proof.
  split; [exact two_telescopes_reachable|].
  apply (setattr_last_wins two_telescopes 0 "latitude" (VFloat 0.25%float) VNone).
  - exact two_telescopes_reachable.
  - exact (proj1 two_telescopes_insts).
  - compute_done.
Defined.

(** X7: assignments to different fields, or to fields of different
    Telescopes, commute: either order leaves the same state. *)
Theorem setattr_commutes s i j f g v w :
  reachable s → is_Some (insts s !! i) → is_Some (insts s !! j) →
  f ∈ fields.*2 → g ∈ fields.*2 → (i, f) ≠ (j, g) →
  ∃ s1 s1' s2, setattr i f (PVal v) s = Ok (tt, s1) ∧
               setattr j g (PVal w) s1 = Ok (tt, s2) ∧
               setattr j g (PVal w) s = Ok (tt, s1') ∧
               setattr i f (PVal v) s1' = Ok (tt, s2).
Proof.
  intros Hs%reachable_wf Hi Hj (k & fd & Hf & ->)%elem_fields_2
         (k' & gd & Hg & ->)%elem_fields_2 Hne.
  assert (S k + i ≠ S k' + j) as Hl.
  { apply (slots_apart s); [done..|by eapply fields_lt|by eapply fields_lt|].
    intros [= -> ->]. apply Hne. rewrite Hf in Hg. by injection Hg as <-. }
  destruct (setattr_store s i k fd (PVal v) Hs Hi Hf) as (p & Hp & Hv).
  destruct (setattr_store s j k' gd (PVal w) Hs Hj Hg) as (q & Hq & Hw).
  pose proof (wf_store s i k fd p v Hs Hi Hf Hp) as Hwf1.
  pose proof (wf_store s j k' gd q w Hs Hj Hg Hq) as Hwf1'.
  destruct (setattr_store _ j k' gd (PVal w) Hwf1 Hj Hg) as (q1 & Hq1 & Hw1).
  destruct (setattr_store _ i k fd (PVal v) Hwf1' Hi Hf) as (p1 & Hp1 & Hv1).
  unfold store at 1 in Hq1. cbn [params] in Hq1.
  rewrite lookup_insert_ne, Hq in Hq1 by done. injection Hq1 as <-.
  unfold store at 1 in Hp1. cbn [params] in Hp1.
  rewrite lookup_insert_ne, Hp in Hp1 by done. injection Hp1 as <-.
  eexists _, _, _. split; [exact Hv|]. split; [exact Hw1|]. split; [exact Hw|].
  rewrite Hv1. unfold store. cbn [params insts props stdout next].
  by rewrite insert_insert_ne.
Qed.

Lemma setattr_commutes_witness :
  reachable two_telescopes ∧
  ∃ s1 s1' s2,
    setattr 0 "altitude" (PVal (VFloat 1073.0%float)) two_telescopes = Ok (tt, s1) ∧
    setattr 9 "altitude" (PVal (VFloat 377.8%float)) s1 = Ok (tt, s2) ∧
    setattr 9 "altitude" (PVal (VFloat 377.8%float)) two_telescopes = Ok (tt, s1') ∧
    setattr 0 "altitude" (PVal (VFloat 1073.0%float)) s1' = Ok (tt, s2).
Proof.
  split; [exact two_telescopes_reachable|].
  apply (setattr_commutes two_telescopes 0 9 "altitude" "altitude"
           (VFloat 1073.0%float) (VFloat 377.8%float)).
  - exact two_telescopes_reachable.
  - exact (proj1 two_telescopes_insts).
  - exact (proj2 two_telescopes_insts).
  - compute_done.
  - compute_done.
  - discriminate.
Defined.

(** * More properties of construction and comparison *)

(** X8: [Telescope()] returns an instance that did not exist before, and,
    though [__init__] installs the properties on the class again, every
    field of every Telescope that did exist reads as before. *)
Theorem Telescope_new_keeps_others s :
  reachable s →
  ∃ s', Telescope_new s = Ok (next s, s') ∧
        insts s !! next s = None ∧ is_Some (insts s' !! next s) ∧
        ∀ j g, is_Some (insts s !! j) → g ∈ fields.*2 →
               is_Some (insts s' !! j) ∧ getattr j g s' = getattr j g s.
Proof.
  intros Hs%reachable_wf.
  destruct (Telescope_new_wf s Hs) as (s' & Hnew & Hwf' & Hi & _ & Hold & _ & Hkeep).
  exists s'. split; [done|]. split; [|split; [done|]].
  - destruct (insts s !! next s) as [d|] eqn:E; [|done].
    pose proof (io_next s (next s) (wf_inst s Hs (next s) (mk_is_Some _ _ E))). lia.
  - intros j g Hj (k & gd & Hg & ->)%elem_fields_2. split; [by apply Hold|].
    destruct (getattr_wf s j k gd Hs Hj Hg) as (w & -> & Hw).
    apply (getattr_val s' j k gd); [done|by apply Hold|done|].
    rewrite Hkeep; [done..|by eapply fields_lt].
Qed.

Lemma Telescope_new_keeps_others_witness :
  reachable two_telescopes ∧
  ∃ s', Telescope_new two_telescopes = Ok (next two_telescopes, s') ∧
        insts two_telescopes !! next two_telescopes = None ∧
        is_Some (insts s' !! next two_telescopes) ∧
        ∀ j g, is_Some (insts two_telescopes !! j) → g ∈ fields.*2 →
               is_Some (insts s' !! j) ∧ getattr j g s' = getattr j g two_telescopes.
Proof.
  split; [exact two_telescopes_reachable|].
  exact (Telescope_new_keeps_others two_telescopes two_telescopes_reachable).
Defined.

(** X9: the bookkeeping [__init__] sets up stays coherent: under each name
    that [parameter_iter] yields there is a parameter object whose own name
    is that name without the underscore, and the class property of that
    name was made from exactly this attribute. *)
Theorem parameter_names_coherent s i p :
  reachable s → is_Some (insts s !! i) → p ∈ param_names →
  ∃ pa, param_at s i p = Some pa ∧ String.append "_" (uvp.name pa) = p ∧
        props s !! uvp.name pa = Some p.
Proof.
  intros Hs%reachable_wf Hi Hp.
  assert (p ∈ fields.*1) as (k & f & Hf & ->)%elem_fields_1.
  { revert Hp. cbn. unfold param_names. rewrite !elem_of_cons, !elem_of_nil. tauto. }
  destruct (wf_inst s Hs i Hi) as [Hd _ Hpar].
  destruct (Hpar k f Hf) as (pa & v & Hl & Hn & _).
  destruct (param_at_wf s i k f Hs Hi Hf) as (pa' & Hpa & Hl').
  rewrite Hl in Hl'. injection Hl' as <-. exists pa. split; [done|].
  rewrite Hn, (wf_props_inst s i Hs Hi).
  destruct (props_lookup k f Hf) as [_ ->]. split; [|done].
  each_field Hf; reflexivity.
Qed.

Lemma parameter_names_coherent_witness :
  reachable two_telescopes ∧
  ∃ pa, param_at two_telescopes 9 "_longitude" = Some pa ∧
        String.append "_" (uvp.name pa) = "_longitude" ∧
        props two_telescopes !! uvp.name pa = Some "_longitude".
Proof.
  split; [exact two_telescopes_reachable|].
  apply (parameter_names_coherent two_telescopes 9 "_longitude").
  - exact two_telescopes_reachable.
  - exact (proj2 two_telescopes_insts).
  - compute_done.
Defined.

Lemma eq_result_wf ne s a b :
  wf s → is_Some (insts s !! a) → is_Some (insts s !! b) →
  ∃ r, Telescope_eq ne a (PTelescope b) s = Ok (r, s) ∧
       (r = true ↔ Forall (pair_equal ne s a b) param_names).
Proof.
  intros Hs Ha Hb.
  destruct (Telescope_eq_examined_wf ne s a b Hs Ha Hb) as (r & Hr & Hiff).
  exists r. split; [|done]. unfold Telescope_eq. by rewrite M_bind_eq, Hr.
Qed.

(** X10: a Telescope equals itself as soon as each of its parameters
    compares equal to itself; [t == t] is then True and [t != t] False. *)
Theorem Telescope_eq_reflexive ne s a :
  reachable s → is_Some (insts s !! a) →
  (∀ p pa, param_at s a p = Some pa → ne (OParam pa) (OParam pa) = false) →
  Telescope_eq ne a (PTelescope a) s = Ok (true, s) ∧
  Telescope_ne ne a (PTelescope a) s = Ok (false, s).
Proof.
  intros Hs%reachable_wf Ha Hrefl.
  destruct (eq_result_wf ne s a a Hs Ha Ha) as (r & Hr & Hiff).
  assert (r = true) as ->.
  { apply Hiff, Forall_forall. intros p Hp.
    destruct (proj2 (param_at_names s a p Hs Ha) Hp) as [pa Hpa].
    exists pa, pa. eauto. }
  split; [done|]. unfold Telescope_ne. by rewrite M_bind_eq, Hr.
Qed.

(** X11: if the comparison of parameters is symmetric on the parameters of
    two Telescopes, then [a == b] and [b == a] return the same. *)
Theorem Telescope_eq_symmetric ne s a b :
  reachable s → is_Some (insts s !! a) → is_Some (insts s !! b) →
  (∀ p pa pb, param_at s a p = Some pa → param_at s b p = Some pb →
              ne (OParam pa) (OParam pb) = ne (OParam pb) (OParam pa)) →
  Telescope_eq ne a (PTelescope b) s = Telescope_eq ne b (PTelescope a) s.
Proof.
  intros Hs%reachable_wf Ha Hb Hsym.
  destruct (eq_result_wf ne s a b Hs Ha Hb) as (r & -> & Hiff).
  destruct (eq_result_wf ne s b a Hs Hb Ha) as (r' & -> & Hiff').
  assert (Forall (pair_equal ne s a b) param_names
          ↔ Forall (pair_equal ne s b a) param_names) as Hall.
  { rewrite !Forall_forall. split; intros H p Hp;
      destruct (H p Hp) as (x & y & Hx & Hy & Hne); exists y, x;
      (split; [done|]); (split; [done|]).
    - by rewrite <- (Hsym p x y).
    - by rewrite (Hsym p y x). }
  do 2 f_equal. destruct r, r'; try done.
  - by destruct (proj2 Hiff' (proj1 Hall (proj1 Hiff eq_refl))).
  - by destruct (proj2 Hiff (proj2 Hall (proj1 Hiff' eq_refl))).
Qed.

Lemma two_telescopes_params i p pa :
  i = 0 ∨ i = 9 → param_at two_telescopes i p = Some pa →
  p ∈ param_names ∧ param_at two_telescopes i p = Some pa.
Proof.
  intros Hi H. split; [|done].
  apply (param_at_names two_telescopes i p (reachable_wf _ two_telescopes_reachable)).
  - destruct Hi as [-> | ->]; apply two_telescopes_insts.
  - by eexists.
Qed.

Lemma UVParameter_ne_refl_sample p pa :
  param_at two_telescopes 0 p = Some pa → UVParameter_ne (OParam pa) (OParam pa) = false.
Proof.
  intros [Hp H]%two_telescopes_params; [|by left].
  unfold param_names in Hp.
  repeat (apply elem_of_cons in Hp as [->|Hp];
          [vm_compute in H; injection H as <-; vm_compute; reflexivity|]).
  exfalso. revert Hp. clear. apply not_elem_of_nil.
Qed.

Lemma UVParameter_ne_sym_sample p pa pb :
  param_at two_telescopes 0 p = Some pa → param_at two_telescopes 9 p = Some pb →
  UVParameter_ne (OParam pa) (OParam pb) = UVParameter_ne (OParam pb) (OParam pa).
Proof.
  intros [Hp H]%two_telescopes_params H'; [|by left].
  unfold param_names in Hp.
  repeat (apply elem_of_cons in Hp as [->|Hp];
          [vm_compute in H; vm_compute in H'; injection H as <-; injection H' as <-;
           vm_compute; reflexivity|]).
  exfalso. revert Hp. clear. apply not_elem_of_nil.
Qed.

Lemma Telescope_eq_reflexive_witness :
  reachable two_telescopes ∧
  Telescope_eq UVParameter_ne 0 (PTelescope 0) two_telescopes = Ok (true, two_telescopes) ∧
  Telescope_ne UVParameter_ne 0 (PTelescope 0) two_telescopes = Ok (false, two_telescopes).
Proof.
  split; [exact two_telescopes_reachable|].
  apply (Telescope_eq_reflexive UVParameter_ne two_telescopes 0).
  - exact two_telescopes_reachable.
  - exact (proj1 two_telescopes_insts).
  - exact UVParameter_ne_refl_sample.
Defined.

Lemma Telescope_eq_symmetric_witness :
  reachable two_telescopes ∧
  Telescope_eq UVParameter_ne 0 (PTelescope 9) two_telescopes
  = Telescope_eq UVParameter_ne 9 (PTelescope 0) two_telescopes.
Proof.
  split; [exact two_telescopes_reachable|].
  apply (Telescope_eq_symmetric UVParameter_ne two_telescopes 0 9).
  - exact two_telescopes_reachable.
  - exact (proj1 two_telescopes_insts).
  - exact (proj2 two_telescopes_insts).
  - exact UVParameter_ne_sym_sample.
Defined.

(** * The loop of telescopes *)

(** X16: the loop of [telescopes] gets past no entry.  Over any list of
    dicts that is not empty, whatever keys and values they hold, it raises
    AttributeError at [telescope.name] on line 114 for the first of them,
    before anything is put in the registry; so it returns only on the empty
    list, with the registry as it was. *)
Theorem telescopes_loop_registers_nothing XYZ LLA s dict_list telescopes :
  reachable s →
  telescopes_loop XYZ LLA dict_list telescopes s =
  match dict_list with
  | [] => Ok (telescopes, s)
  | _ :: _ => Raise (AttributeError "name")
  end.
Proof.
  intros Hs%reachable_wf. destruct dict_list as [|telescope dict_list]; [done|].
  by apply telescopes_loop_raises.
Qed.

Lemma telescopes_loop_registers_nothing_witness :
  reachable two_telescopes ∧
  telescopes_loop sample_XYZ_from_LatLonAlt sample_LatLonAlt_from_XYZ
    [full_entry; geodetic_entry] [] two_telescopes = Raise (AttributeError "name").
Proof.
  split; [exact two_telescopes_reachable|].
  apply (telescopes_loop_registers_nothing sample_XYZ_from_LatLonAlt
           sample_LatLonAlt_from_XYZ two_telescopes [full_entry; geodetic_entry] []).
  exact two_telescopes_reachable.
Defined.
